(** * Ghefira-Cashflow: the balance ledger, the category resolver and the
      category classifier service of [controller/transactionController.js]

    The development is a shallow embedding of the request handlers of
    [src/controller/transactionController.js] (the second copy of the file,
    [src/unnamed/part_000], has the same text for every function modelled
    here).  MongoDB collections are finite maps from document ids to
    documents, the handlers are functions from a store to a response and a
    store, and the external libraries ([RegExp], the [bayes] classifier, the
    file system) are section variables or small explicit models.

    Conventions.
    - A JavaScript [Number] holding a money amount is modelled by an integer
      of [Z], and [+], [-] and [<] by the operations of [Z].  The model
      covers integer amounts, negative ones included; it agrees with the
      arithmetic of doubles as long as the operands and the result of an
      addition or subtraction are within [Number.MAX_SAFE_INTEGER], and
      the statements that compare an amount with the result of more than
      one operation assume so explicitly ([safe]).  [NaN], which arises
      from [x += undefined], is the [None] of [option Z].
    - Document ids ([ObjectId]) are natural numbers; a new document gets an
      id that is not in use.  The ids a request body carries are strings:
      [castObjectId] is the cast Mongoose applies to them and
      [ObjectId_toString] is [ObjectId.prototype.toString]; both are
      parameters of the handlers.  The id of the path ([req.params.id]) is
      taken after its cast: a path id that does not cast makes the first
      [findById] throw before anything is read or written.
    - The request body has passed the fastest-validator schema of its route,
      so its fields have the types of the records below.
    - Database and file operations succeed: the handlers are followed along
      the paths on which MongoDB answers and [fs] does not throw.  The
      rejections that are modelled are the ones the requests cause
      themselves: the cast of an id string that is no [ObjectId], and the
      save of a [NaN] amount, which the [Number] type of the Saldo schema
      refuses. *)

From Stdlib Require Import ZArith QArith Qround Ascii.
From stdpp Require Import gmap strings list fin_maps.

Open Scope Z_scope.

(* ===================================================================== *)
(** * Strings *)
(* ===================================================================== *)

(** [String.prototype.toLowerCase] on strings of ASCII characters: [A]..[Z]
    are mapped to [a]..[z], every other character is kept.  A statement
    that depends on the lower-case form of a label it quantifies over
    assumes the label to be ASCII. *)
Definition lower_ascii (c : ascii) : ascii :=
  let n := nat_of_ascii c in
  if ((65 <=? n) && (n <=? 90))%nat then ascii_of_nat (n + 32) else c.

Fixpoint toLowerCase (s : string) : string :=
  match s with
  | EmptyString => EmptyString
  | String c r => String (lower_ascii c) (toLowerCase r)
  end.

(* ===================================================================== *)
(** * Data model: [model/Transaction.js], [model/Saldo.js] *)
(* ===================================================================== *)

(** [type: { enum: ['income', 'expense'] }] *)
Inductive TxType := income | expense.

Global Instance TxType_eq_dec : EqDecision TxType.
Proof. solve_decision. Defined.

(** [model/Saldo.js] *)
Record Saldo := mkSaldo {
  saldo_name : string;
  saldo_amount : Z;
  saldo_description : string
}.

(** [model/Transaction.js]; [tx_user], [tx_category] and [tx_saldo] are the
    referenced document ids. *)
Record Transaction := mkTransaction {
  tx_user : nat;
  tx_category : nat;
  tx_saldo : nat;
  tx_amount : Z;
  tx_description : string;
  tx_type : TxType
}.

(** Modelled from the spec: the Category schema ([model/Category.js] is not
    part of the sources): [{id, name, type: income|expense, description}]. *)
Record Category := mkCategory {
  cat_id : nat;
  cat_name : string;
  cat_type : TxType;
  cat_description : string
}.

Global Instance Saldo_eq_dec : EqDecision Saldo.
Proof. solve_decision. Defined.
Global Instance Transaction_eq_dec : EqDecision Transaction.
Proof. solve_decision. Defined.
Global Instance Category_eq_dec : EqDecision Category.
Proof. solve_decision. Defined.

(** The three collections the transaction routes read and write.  The
    categories are kept in insertion order, the order in which [findOne]
    scans them. *)
Record Store := mkStore {
  saldos : gmap nat Saldo;
  transactions : gmap nat Transaction;
  categories : list Category
}.

(** What a handler answers.  The last five are exceptions, forwarded by
    [catchAsyncErrors]. *)
Inductive Response :=
| Ok200                    (* 200, "success" *)
| SaldoNotFound            (* 404 "Saldo not found" *)
| TransactionNotFound      (* 404 "Transaction not found" *)
| OriginalSaldoNotFound    (* 404 "Original saldo not found" *)
| NewSaldoNotFound         (* 404 "New saldo not found" *)
| InsufficientBalance      (* 400 "Insufficient balance for this transaction" *)
| RegExpSyntaxError        (* [new RegExp] threw *)
| CastError                (* [Saldo.findById] threw: the id string is no ObjectId *)
| SaveRejected             (* [saldo.save()] rejected a NaN amount *)
| CreateRejected           (* [Transaction.create] rejected the document *)
| UpdateRejected.          (* [Transaction.findByIdAndUpdate] rejected the body *)

Global Instance Response_eq_dec : EqDecision Response.
Proof. solve_decision. Defined.

(** [saldo.amount = a; await saldo.save()] for the document with id [s]. *)
Definition save_saldo (s : nat) (sd : Saldo) (a : Z) (st : Store) : Store :=
  mkStore (<[s := mkSaldo (saldo_name sd) a (saldo_description sd)]> (saldos st))
          (transactions st) (categories st).

(** The stored amount of the saldo [s], if there is such a saldo. *)
Definition amount_of (s : nat) (st : Store) : option Z :=
  saldo_amount <$> saldos st !! s.

(** [Transaction.create(tx)]: the document is stored under a new id. *)
Definition Transaction_create (tx : Transaction) (st : Store) : Store :=
  mkStore (saldos st)
          (<[fresh (dom (transactions st)) := tx]> (transactions st))
          (categories st).

(* ===================================================================== *)
(** * Category resolver: step 4 of [router.post("/models")] *)
(* ===================================================================== *)

Section Resolver.

(** [new RegExp(source, "i")]: [None] when the constructor throws a
    [SyntaxError], otherwise the test the expression performs on a
    category name. *)
Variable RegExp_i : string → option (string → bool).

(** [Category.findOne({ name: { $regex: re }, type })] *)
Definition Category_findOne (re : string → bool) (ty : TxType)
    (cats : list Category) : option Category :=
  List.find (λ c, re (cat_name c) && bool_decide (cat_type c = ty)) cats.

(** [Category.create({ name, type, description })] *)
Definition Category_create (name : string) (ty : TxType) (descr : string)
    (cats : list Category) : Category * list Category :=
  let c := mkCategory (fresh (cat_id <$> cats)) name ty descr in
  (c, cats ++ [c]).

(** Find or create the category of a predicted label
<<
    let predictedCategory = await Category.findOne({
        name: { $regex: new RegExp(`^${predictedCategoryName}$`, "i") },
        type,
    });
    if (!predictedCategory) {
        predictedCategory = await Category.create({
            name: predictedCategoryName.toLowerCase(),
            type,
            description: `Auto-generated category for ${predictedCategoryName}`,
        });
    }
>>
    [None] is the exception of [new RegExp]. *)
Definition resolveCategory (predictedCategoryName : string) (ty : TxType)
    (cats : list Category) : option (Category * list Category) :=
  match RegExp_i ("^" +:+ predictedCategoryName +:+ "$") with
  | None => None
  | Some re =>
      match Category_findOne re ty cats with
      | Some c => Some (c, cats)
      | None =>
          Some (Category_create (toLowerCase predictedCategoryName) ty
                  ("Auto-generated category for " +:+ predictedCategoryName)
                  cats)
      end
  end.

End Resolver.

(* ===================================================================== *)
(** * A fragment of [RegExp] *)
(* ===================================================================== *)

(** The patterns [^body$] whose body is made of ordinary characters and
    dots.  An ordinary character stands for itself, compared without case
    under the [i] flag; a dot stands for every character but a line
    terminator. *)
Inductive Atom := Lit (c : ascii) | AnyChar.

(** ECMAScript [SyntaxCharacter]: [^ $ \ . * + ? ( ) [ ] { } |] *)
Definition is_syntax_char (c : ascii) : bool :=
  bool_decide (nat_of_ascii c ∈ [94; 36; 92; 46; 42; 43; 63; 40; 41; 91; 93; 123; 125; 124]%nat).

(** The atoms of [body$]. *)
Fixpoint compile_body (s : string) : option (list Atom) :=
  match s with
  | EmptyString => None
  | String c r =>
      if bool_decide (c = "$"%char) then
        match r with EmptyString => Some [] | _ => None end
      else if bool_decide (c = "."%char) then cons AnyChar <$> compile_body r
      else if is_syntax_char c then None
      else cons (Lit c) <$> compile_body r
  end.

Definition atom_test (a : Atom) (c : ascii) : bool :=
  match a with
  | Lit x => bool_decide (lower_ascii x = lower_ascii c)
  | AnyChar => negb (bool_decide (nat_of_ascii c ∈ [10; 13]%nat))
  end.

(** [re.test(s)] for an expression anchored at both ends. *)
Fixpoint match_atoms (p : list Atom) (s : string) : bool :=
  match p, s with
  | [], EmptyString => true
  | a :: p', String c s' => atom_test a c && match_atoms p' s'
  | _, _ => false
  end.

(** [new RegExp(source, "i")] on the fragment.  For a source outside of the
    fragment the answer is [None] as well, which then does not stand for
    what [RegExp] does: the statements below use the fragment on sources
    inside it only. *)
Definition fragment_RegExp_i (source : string) : option (string → bool) :=
  match source with
  | String c body =>
      if bool_decide (c = "^"%char) then match_atoms <$> compile_body body else None
  | EmptyString => None
  end.

(** A label with no syntax character of [RegExp]. *)
Fixpoint ordinary (label : string) : bool :=
  match label with
  | EmptyString => true
  | String c r => negb (is_syntax_char c) && ordinary r
  end.

Fixpoint literal_atoms (label : string) : list Atom :=
  match label with
  | EmptyString => []
  | String c r => Lit c :: literal_atoms r
  end.

(** The lookup as the specification words it: the name equal to the label
    up to case, the type equal. *)
Definition findByNameTypeCI (name : string) (ty : TxType) (cats : list Category)
    : option Category :=
  List.find (λ c, bool_decide (toLowerCase (cat_name c) = toLowerCase name)
                  && bool_decide (cat_type c = ty)) cats.

(* ===================================================================== *)
(** * Balance ledger: the transaction routes *)
(* ===================================================================== *)

(** Body of [POST /models]: [{ user, saldo, amount, description, type }].
    [user] and [saldo] are strings ([type: "string", empty: false]). *)
Record PredictBody := mkPredictBody {
  pb_user : string;
  pb_saldo : string;
  pb_amount : Z;
  pb_description : string;
  pb_type : TxType
}.

(** Body of [POST ""]: [{ user, category, saldo, amount, description, type }]. *)
Record CreateBody := mkCreateBody {
  cb_user : string;
  cb_category : string;
  cb_saldo : string;
  cb_amount : Z;
  cb_description : string;
  cb_type : TxType
}.

(** Body of [PUT /:id].  The five fields of the schema are [optional: true];
    the validator lets every other key pass and the handler hands the whole
    body to [findByIdAndUpdate].  [p_user] is the key [user], the one field
    of a stored transaction the schema of the route does not name;
    [p_others_cast] tells whether the update accepts what the body holds
    under the remaining paths of the Transaction schema ([_id],
    [createdAt], [updatedAt]), and is [true] for a body without them. *)
Record Patch := mkPatch {
  p_user : option string;
  p_category : option string;
  p_saldo : option string;
  p_amount : option Z;
  p_description : option string;
  p_type : option TxType;
  p_others_cast : bool
}.

(** [await transaction.deleteOne()] *)
Definition Transaction_deleteOne (id : nat) (st : Store) : Store :=
  mkStore (saldos st) (delete id (transactions st)) (categories st).

(** The reversal both [PUT /:id] and [DELETE /:id] start with
<<
      if (t.type === "income") { saldo.amount -= t.amount; }
      else if (t.type === "expense") { saldo.amount += t.amount; }
>> *)
Definition revert (t : Transaction) (a : Z) : Z :=
  match tx_type t with
  | income => a - tx_amount t
  | expense => a + tx_amount t
  end.

(** The reapplication of [PUT /:id], the same text in both branches
<<
      if (req.body.type === "income") { s.amount += req.body.amount; }
      else if (req.body.type === "expense") { s.amount -= req.body.amount; }
>>
      It reads the request body only.  Without [type] no branch is taken;
      with [type] and without [amount] the sum is [NaN], here [None]. *)
Definition reapply (p : Patch) (a : Z) : option Z :=
  match p_type p with
  | None => Some a
  | Some income => (λ x, a + x) <$> p_amount p
  | Some expense => (λ x, a - x) <$> p_amount p
  end.

Section Ledger.

Variable RegExp_i : string → option (string → bool).

(** The cast of a string to an [ObjectId] that Mongoose applies to the
    argument of [findById] and to the [ObjectId] paths of a document or of
    an update; [None] when it throws [CastError]. *)
Variable castObjectId : string → option nat.

(** [ObjectId.prototype.toString] *)
Variable ObjectId_toString : nat → string.

(** An [ObjectId] path of an update: kept when the body does not name it,
    cast when it does. *)
Definition cast_field (old : nat) (field : option string) : option nat :=
  match field with
  | Some s => castObjectId s
  | None => Some old
  end.

(** The document [Transaction.findByIdAndUpdate(id, req.body)] leaves: the
    fields present in the body are set, the others are kept.  [None] when
    the update is rejected, which it is when an id string of the body does
    not cast. *)
Definition apply_patch (tx : Transaction) (p : Patch) : option Transaction :=
  if p_others_cast p then
    user ← cast_field (tx_user tx) (p_user p);
    category ← cast_field (tx_category tx) (p_category p);
    saldo ← cast_field (tx_saldo tx) (p_saldo p);
    Some (mkTransaction user category saldo
                        (default (tx_amount tx) (p_amount p))
                        (default (tx_description tx) (p_description p))
                        (default (tx_type tx) (p_type p)))
  else None.

(** [Transaction.findByIdAndUpdate(id, req.body, { new: true })]; [None]
    when it throws. *)
Definition Transaction_findByIdAndUpdate (id : nat) (p : Patch) (st : Store)
    : option Store :=
  match transactions st !! id with
  | Some tx =>
      tx' ← apply_patch tx p;
      Some (mkStore (saldos st) (<[id := tx']> (transactions st)) (categories st))
  | None => Some st
  end.

(** [req.body.saldo && req.body.saldo !== existingTransaction.saldo.toString()]:
    the string of the body when the condition holds.  The comparison is one
    of strings; the empty string is falsy. *)
Definition saldo_changed (p : Patch) (existing : Transaction) : option string :=
  match p_saldo p with
  | Some s =>
      if bool_decide (s = "") || bool_decide (s = ObjectId_toString (tx_saldo existing))
      then None else Some s
  | None => None
  end.

(** The saldo [PUT /:id] goes on to save: the one the body names when
    [saldo_changed], else the one the transaction is bound to.  [None] when
    the string of the body does not cast. *)
Definition affected_saldo (p : Patch) (existing : Transaction) : option nat :=
  match saldo_changed p existing with
  | Some body_saldo => castObjectId body_saldo
  | None => Some (tx_saldo existing)
  end.

(** The tail of both branches of [PUT /:id]: the saldo [s] is saved with the
    amount [a], then the transaction is updated. *)
Definition save_then_update (id : nat) (p : Patch) (s : nat) (sd : Saldo) (a : Z)
    (st : Store) : Response * Store :=
  let st1 := save_saldo s sd a st in
  match Transaction_findByIdAndUpdate id p st1 with
  | Some st2 => (Ok200, st2)
  | None => (UpdateRejected, st1)
  end.

(** [router.post("/models")], after validation.  The awaited result of
    [predictCategory(description, type)] is the argument
    [predictedCategoryName].  The saldo is saved before the transaction is
    created; [Transaction.create] casts [user]. *)
Definition createWithPrediction (b : PredictBody) (predictedCategoryName : string)
    (st : Store) : Response * Store :=
  match castObjectId (pb_saldo b) with
  | None => (CastError, st)
  | Some saldoId =>
      match saldos st !! saldoId with
      | None => (SaldoNotFound, st)
      | Some saldo =>
          match resolveCategory RegExp_i predictedCategoryName (pb_type b) (categories st) with
          | None => (RegExpSyntaxError, st)
          | Some (predictedCategory, cats) =>
              let st1 := mkStore (saldos st) (transactions st) cats in
              let newAmount :=
                match pb_type b with
                | income => saldo_amount saldo + pb_amount b
                | expense => saldo_amount saldo - pb_amount b
                end in
              if (newAmount <? 0) && bool_decide (pb_type b = expense)
              then (InsufficientBalance, st1)
              else
                let st2 := save_saldo saldoId saldo newAmount st1 in
                match castObjectId (pb_user b) with
                | None => (CreateRejected, st2)
                | Some user =>
                    (Ok200,
                     Transaction_create
                       (mkTransaction user (cat_id predictedCategory) saldoId
                                      (pb_amount b) (pb_description b) (pb_type b)) st2)
                end
          end
      end
  end.

(** [router.post("")], after validation.  The saldo is saved before the
    transaction is created; [Transaction.create] casts [user] and
    [category]. *)
Definition createTransaction (b : CreateBody) (st : Store) : Response * Store :=
  match castObjectId (cb_saldo b) with
  | None => (CastError, st)
  | Some saldoId =>
      match saldos st !! saldoId with
      | None => (SaldoNotFound, st)
      | Some saldo =>
          let a :=
            match cb_type b with
            | income => saldo_amount saldo + cb_amount b
            | expense => saldo_amount saldo - cb_amount b
            end in
          let st1 := save_saldo saldoId saldo a st in
          match castObjectId (cb_user b), castObjectId (cb_category b) with
          | Some user, Some category =>
              (Ok200,
               Transaction_create
                 (mkTransaction user category saldoId
                                (cb_amount b) (cb_description b) (cb_type b)) st1)
          | _, _ => (CreateRejected, st1)
          end
      end
  end.

(** [router.put("/:id")], after validation.  The reverted amount lives in
    the loaded document [saldo]; it reaches the collection only through
    [saldo.save()], which the branch of a changed saldo does not call.
    That branch loads the saldo the body names, also when the string casts
    to the id of the saldo the transaction is bound to. *)
Definition updateTransaction (id : nat) (p : Patch) (st : Store) : Response * Store :=
  match transactions st !! id with
  | None => (TransactionNotFound, st)
  | Some existingTransaction =>
      match saldos st !! tx_saldo existingTransaction with
      | None => (OriginalSaldoNotFound, st)
      | Some saldo =>
          let reverted := revert existingTransaction (saldo_amount saldo) in
          match saldo_changed p existingTransaction with
          | Some body_saldo =>
              match castObjectId body_saldo with
              | None => (CastError, st)
              | Some s' =>
                  match saldos st !! s' with
                  | None => (NewSaldoNotFound, st)
                  | Some newSaldo =>
                      match reapply p (saldo_amount newSaldo) with
                      | None => (SaveRejected, st)
                      | Some a => save_then_update id p s' newSaldo a st
                      end
                  end
              end
          | None =>
              match reapply p reverted with
              | None => (SaveRejected, st)
              | Some a => save_then_update id p (tx_saldo existingTransaction) saldo a st
              end
          end
      end
  end.

(** [router.delete("/:id")] *)
Definition deleteTransaction (id : nat) (st : Store) : Response * Store :=
  match transactions st !! id with
  | None => (TransactionNotFound, st)
  | Some transaction =>
      match saldos st !! tx_saldo transaction with
      | None => (SaldoNotFound, st)
      | Some saldo =>
          let st1 := save_saldo (tx_saldo transaction) saldo
                                (revert transaction (saldo_amount saldo)) st in
          (Ok200, Transaction_deleteOne id st1)
      end
  end.

(** A request to one of the four routes, and the run of a sequence of
    requests. *)
Inductive Op :=
| OpCreateModels (b : PredictBody) (predictedCategoryName : string)
| OpCreate (b : CreateBody)
| OpUpdate (id : nat) (p : Patch)
| OpDelete (id : nat).

Definition step (op : Op) (st : Store) : Response * Store :=
  match op with
  | OpCreateModels b l => createWithPrediction b l st
  | OpCreate b => createTransaction b st
  | OpUpdate id p => updateTransaction id p st
  | OpDelete id => deleteTransaction id st
  end.

(** The stores after each request of a sequence. *)
Fixpoint trace (st : Store) (ops : list Op) : list Store :=
  match ops with
  | [] => []
  | op :: r => (step op st).2 :: trace (step op st).2 r
  end.

End Ledger.

(* ===================================================================== *)
(** * The ledger invariant *)
(* ===================================================================== *)

(** The signed effect of a transaction: income [+amount], expense [-amount]. *)
Definition effect (t : Transaction) : Z :=
  match tx_type t with
  | income => tx_amount t
  | expense => - tx_amount t
  end.

(** The effect of [t] on the saldo [s]: nothing unless [t] is bound to [s]. *)
Definition bound_effect (s : nat) (t : Transaction) : Z :=
  if bool_decide (tx_saldo t = s) then effect t else 0.

(** Sum of the signed effects of the stored transactions bound to [s]. *)
Definition bound_sum (s : nat) (txs : gmap nat Transaction) : Z :=
  map_fold (λ _ t acc, bound_effect s t + acc) 0 txs.

(** The invariant as the specification words it: every amount is the sum of
    the effects bound to the saldo. *)
Definition ledger_claim (st : Store) : Prop :=
  map_Forall (λ s sd, saldo_amount sd = bound_sum s (transactions st)) (saldos st).

(** The invariant with an opening amount per saldo, the amount the saldo was
    created with by [saldoController.js]. *)
Definition ledger_inv (opening : nat → Z) (st : Store) : Prop :=
  map_Forall (λ s sd, saldo_amount sd = opening s + bound_sum s (transactions st))
             (saldos st).

Global Instance ledger_claim_dec st : Decision (ledger_claim st).
Proof. unfold ledger_claim. apply _. Defined.
Global Instance ledger_inv_dec opening st : Decision (ledger_inv opening st).
Proof. unfold ledger_inv. apply _. Defined.

(** [Number.MAX_SAFE_INTEGER]: the integers of at most this magnitude are
    doubles, and a sum or difference of two of them that is again of at
    most this magnitude is computed without rounding. *)
Definition MAX_SAFE_INTEGER : Z := 2 ^ 53 - 1.

Definition safe (z : Z) : bool :=
  (- MAX_SAFE_INTEGER <=? z) && (z <=? MAX_SAFE_INTEGER).

Section Supported.

Variable RegExp_i : string → option (string → bool).
Variable castObjectId : string → option nat.
Variable ObjectId_toString : nat → string.

(** The numbers the handler of a request adds or subtracts once the
    documents it looks up are found, operands and results in the order of
    the handler; for an update, those of the branch that keeps the saldo. *)
Definition arithmetic (st : Store) (op : Op) : list Z :=
  match op with
  | OpCreateModels b _ =>
      match castObjectId (pb_saldo b) ≫= (saldos st !!.) with
      | Some sd =>
          [saldo_amount sd; pb_amount b;
           match pb_type b with
           | income => saldo_amount sd + pb_amount b
           | expense => saldo_amount sd - pb_amount b
           end]
      | None => []
      end
  | OpCreate b =>
      match castObjectId (cb_saldo b) ≫= (saldos st !!.) with
      | Some sd =>
          [saldo_amount sd; cb_amount b;
           match cb_type b with
           | income => saldo_amount sd + cb_amount b
           | expense => saldo_amount sd - cb_amount b
           end]
      | None => []
      end
  | OpUpdate id p =>
      match transactions st !! id ≫= λ t, pair t <$> saldos st !! tx_saldo t with
      | Some (t, sd) =>
          [saldo_amount sd; tx_amount t; revert t (saldo_amount sd)]
          ++ match p_amount p, reapply p (revert t (saldo_amount sd)) with
             | Some x, Some a => [x; a]
             | _, _ => []
             end
      | None => []
      end
  | OpDelete id =>
      match transactions st !! id ≫= λ t, pair t <$> saldos st !! tx_saldo t with
      | Some (t, sd) => [saldo_amount sd; tx_amount t; revert t (saldo_amount sd)]
      | None => []
      end
  end.

(** A request the invariant theorem covers.
    - The id strings that are cast after the saldo has been saved do cast:
      [user] and [category] of a creation, every id string of an update.
    - An update carries a [type] and keeps the transaction on its saldo: its
      body names no saldo, or the string of the saldo the transaction is
      bound to.
    - The numbers the handler adds and subtracts are safe integers. *)
Definition supported (st : Store) (op : Op) : bool :=
  forallb safe (arithmetic st op)
  && match op with
     | OpCreateModels b _ => bool_decide (is_Some (castObjectId (pb_user b)))
     | OpCreate b =>
         bool_decide (is_Some (castObjectId (cb_user b)))
         && bool_decide (is_Some (castObjectId (cb_category b)))
     | OpUpdate id p =>
         match transactions st !! id with
         | Some t =>
             bool_decide (saldo_changed ObjectId_toString p t = None)
             && bool_decide (is_Some (p_type p))
             && match apply_patch castObjectId t p with
                | Some t' => bool_decide (tx_saldo t' = tx_saldo t)
                | None => false
                end
         | None => true
         end
     | OpDelete _ => true
     end.

Fixpoint supported_run (st : Store) (ops : list Op) : bool :=
  match ops with
  | [] => true
  | op :: r =>
      supported st op
      && supported_run (step RegExp_i castObjectId ObjectId_toString op st).2 r
  end.

End Supported.

(* ===================================================================== *)
(** * ObjectIds as strings of 24 hexadecimal digits *)
(* ===================================================================== *)

(** The value of a hexadecimal digit, in either case. *)
Definition hex_value (c : ascii) : option N :=
  let n := N_of_ascii c in
  if ((48 <=? n) && (n <=? 57))%N then Some (n - 48)%N
  else if ((97 <=? n) && (n <=? 102))%N then Some (n - 87)%N
  else if ((65 <=? n) && (n <=? 70))%N then Some (n - 55)%N
  else None.

Definition hex_digit (n : N) : ascii :=
  ascii_of_N (if (n <? 10)%N then n + 48 else n + 87)%N.

Fixpoint hex_digits (k : nat) (n : N) (acc : string) : string :=
  match k with
  | O => acc
  | S k' => hex_digits k' (n / 16)%N (String (hex_digit (n mod 16)%N) acc)
  end.

Fixpoint hex_parse (s : string) (acc : N) : option N :=
  match s with
  | EmptyString => Some acc
  | String c r =>
      match hex_value c with
      | Some d => hex_parse r (16 * acc + d)%N
      | None => None
      end
  end.

(** [ObjectId.prototype.toString]: 24 hexadecimal digits in lower case. *)
Definition hex_toString (id : nat) : string := hex_digits 24 (N.of_nat id) "".

(** The cast of a string of 24 hexadecimal digits, of either case, to the
    [ObjectId] it spells; every other string is taken to be refused. *)
Definition hex_castObjectId (s : string) : option nat :=
  if bool_decide (String.length s = 24%nat) then N.to_nat <$> hex_parse s 0%N else None.

(* ===================================================================== *)
(** * Category classifier service *)
(* ===================================================================== *)

(** A transaction as [Transaction.find().populate("category")] returns it:
    the fields the classifier reads, with the name of the populated
    category, [None] when the reference resolves to no document. *)
Record PopulatedTx := mkPopulatedTx {
  ptx_description : string;
  ptx_type : TxType;
  ptx_category : option string
}.

Global Instance PopulatedTx_eq_dec : EqDecision PopulatedTx.
Proof. solve_decision. Defined.

Definition type_name (ty : TxType) : string :=
  match ty with income => "income" | expense => "expense" end.

(** [`${tx.description} ${tx.type}`.toLowerCase()] *)
Definition inputText (description : string) (ty : TxType) : string :=
  toLowerCase (description +:+ " " +:+ type_name ty).

(** [tx.category?.name || "unknown"] *)
Definition categoryName (tx : PopulatedTx) : string :=
  match ptx_category tx with
  | Some name => if bool_decide (name = "") then "unknown" else name
  | None => "unknown"
  end.

(** [modelData.trim()] is empty: only white space. *)
Definition is_space (c : ascii) : bool :=
  bool_decide (nat_of_ascii c ∈ [9; 10; 11; 12; 13; 32]%nat).

Fixpoint is_blank (s : string) : bool :=
  match s with
  | EmptyString => true
  | String c r => is_space c && is_blank r
  end.

(** [Array.prototype.slice(a, b)] and [slice(a)] for indices [0 <= a <= b]. *)
Definition slice {A} (a b : nat) (l : list A) : list A := take (b - a) (drop a l).
Definition slice_from {A} (a : nat) (l : list A) : list A := drop a l.

(** The calls of [fs] that read or change a file. *)
Inductive FileOp :=
| ReadPrimary            (* fs.readFileSync(MODEL_PATH) *)
| ReadBackup             (* fs.readFileSync(BACKUP_MODEL_PATH) *)
| WritePrimary           (* fs.writeFileSync(MODEL_PATH, ...) *)
| CopyPrimaryToBackup    (* fs.copyFileSync(MODEL_PATH, BACKUP_MODEL_PATH) *)
| CopyBackupToPrimary    (* fs.copyFileSync(BACKUP_MODEL_PATH, MODEL_PATH) *)
| UnlinkPrimary.         (* fs.unlinkSync(MODEL_PATH) *)

Global Instance FileOp_eq_dec : EqDecision FileOp.
Proof. solve_decision. Defined.

(** How often the backup has been read. *)
Definition backup_reads (ops : list FileOp) : nat :=
  length (filter (λ op, op = ReadBackup) ops).

Section Classifier.

(** The [bayes] package: the state of a classifier object, the state of a
    new one, [learn], [categorize] (which answers [undefined] for a
    classifier without categories), [toJson] and [fromJson] ([None] when
    it throws); and [JSON.parse], of which only success matters. *)
Variable Classifier : Type.
Variable bayes : Classifier.
Variable learn : Classifier → string → string → Classifier.
Variable categorize : Classifier → string → option string.
Variable toJson : Classifier → string.
Variable fromJson : string → option Classifier.
Variable JSON_parse : string → bool.

(** The module state: the classifier objects created so far, the variable
    [classifier] referring to one of them, the readiness flag, the time of
    the last training, the files at
    [MODEL_PATH] and [BACKUP_MODEL_PATH] ([None]: no such file), and the
    file operations performed so far, the latest last. *)
Record Service := mkService {
  objects : list Classifier;
  classifier : nat;
  isModelReady : bool;
  lastTrainingDate : option nat;
  model_file : option string;
  backup_file : option string;
  file_ops : list FileOp
}.

(** The object the variable [classifier] refers to. *)
Definition live (sv : Service) : Classifier :=
  default bayes (objects sv !! classifier sv).

(** [classifier = c] for a newly created object of state [c]. *)
Definition assign_new (c : Classifier) (sv : Service) : Service :=
  mkService (objects sv ++ [c]) (length (objects sv)) (isModelReady sv)
            (lastTrainingDate sv) (model_file sv) (backup_file sv) (file_ops sv).

(** A method call that changes the object [classifier] refers to. *)
Definition mutate_live (f : Classifier → Classifier) (sv : Service) : Service :=
  mkService (<[classifier sv := f (live sv)]> (objects sv)) (classifier sv)
            (isModelReady sv) (lastTrainingDate sv) (model_file sv) (backup_file sv)
            (file_ops sv).

Definition set_ready (b : bool) (sv : Service) : Service :=
  mkService (objects sv) (classifier sv) b (lastTrainingDate sv)
            (model_file sv) (backup_file sv) (file_ops sv).

Definition set_lastTrainingDate (d : option nat) (sv : Service) : Service :=
  mkService (objects sv) (classifier sv) (isModelReady sv) d
            (model_file sv) (backup_file sv) (file_ops sv).

(** A file operation [op] that leaves the two files as [m] and [b]. *)
Definition file_op (op : FileOp) (m b : option string) (sv : Service) : Service :=
  mkService (objects sv) (classifier sv) (isModelReady sv) (lastTrainingDate sv) m b
            (file_ops sv ++ [op]).

Definition readFile (op : FileOp) (sv : Service) : Service :=
  file_op op (model_file sv) (backup_file sv) sv.

(** [saveModel()]: the primary file, if there is one, is copied over the
    backup, then the encoding of the live classifier is written to the
    primary file. *)
Definition saveModel (sv : Service) : bool * Service :=
  let modelState := toJson (live sv) in
  let sv1 := match model_file sv with
             | Some old => file_op CopyPrimaryToBackup (Some old) (Some old) sv
             | None => sv
             end in
  (true, file_op WritePrimary (Some modelState) (backup_file sv1) sv1).

(** The body of the [try] of [loadModel] for an existing primary file:
    [None] when one of the three steps throws. *)
Definition parse_primary (modelData : string) : option Classifier :=
  if is_blank modelData then None
  else if JSON_parse modelData then fromJson modelData
  else None.

(** The end of the [catch] of [loadModel]: a new classifier, not ready,
    the primary file removed. *)
Definition start_afresh (sv : Service) : bool * Service :=
  let sv1 := set_ready false (assign_new bayes sv) in
  (false, match model_file sv1 with
          | Some _ => file_op UnlinkPrimary None (backup_file sv1) sv1
          | None => sv1
          end).

(** [loadModel()] *)
Definition loadModel (sv : Service) : bool * Service :=
  match model_file sv with
  | Some modelData =>
      let sv0 := readFile ReadPrimary sv in
      match parse_primary modelData with
      | Some c => (true, set_ready true (assign_new c sv0))
      | None =>
          match backup_file sv0 with
          | Some backupData =>
              let sv1 := readFile ReadBackup sv0 in
              match fromJson backupData with
              | Some c =>
                  let sv2 := set_ready true (assign_new c sv1) in
                  (true, file_op CopyBackupToPrimary (Some backupData) (Some backupData) sv2)
              | None => start_afresh sv1
              end
          | None => start_afresh sv0
          end
      end
  | None => (false, set_ready false (assign_new bayes sv))
  end.

(** [classifier.learn(inputText, categoryName)] for one transaction. *)
Definition learn_tx (c : Classifier) (tx : PopulatedTx) : Classifier :=
  learn c (inputText (ptx_description tx) (ptx_type tx)) (categoryName tx).

Definition batchSize : nat := 100.

(** The [while (true)] of [trainClassifier]: a page of [batchSize]
    transactions is fetched at [skip]; an empty page ends the loop, any
    other is learned by the classifier [c] and counted.  [fuel] bounds
    the number of pages; [train_pages_all] shows that one more than the
    number of transactions is enough. *)
Fixpoint train_pages (fuel : nat) (txs : list PopulatedTx) (skip : nat)
    (c : Classifier) (trainedCount : nat) : Classifier * nat :=
  match fuel with
  | O => (c, trainedCount)
  | S fuel' =>
      match take batchSize (drop skip txs) with
      | [] => (c, trainedCount)
      | page =>
          train_pages fuel' txs (skip + batchSize)
                      (fold_left learn_tx page c)
                      (trainedCount + length page)
      end
  end.

(** [trainClassifier()], run at the time [now] on the transaction
    collection [txs].  [learn] is called on the object the variable
    [classifier] refers to.  The set [categoriesUsed] and the duration only
    feed the console and are left out. *)
Definition trainClassifier (now : nat) (txs : list PopulatedTx) (sv : Service)
    : bool * Service :=
  let '(c, trainedCount) := train_pages (S (length txs)) txs 0 (live sv) 0 in
  let sv1 := mutate_live (λ _, c) sv in
  if bool_decide (0 < trainedCount)%nat then
    let '(success, sv2) := saveModel sv1 in
    if success then (true, set_ready true (set_lastTrainingDate (Some now) sv2))
    else (false, sv2)
  else (false, sv1).

(** [ensureModelReady()] *)
Definition ensureModelReady (now : nat) (txs : list PopulatedTx) (sv : Service)
    : bool * Service :=
  if negb (isModelReady sv) then trainClassifier now txs sv else (true, sv).

(** [predictCategory(description, type)] *)
Definition predictCategory (now : nat) (txs : list PopulatedTx)
    (description : string) (ty : TxType) (sv : Service) : string * Service :=
  let sv1 := if negb (isModelReady sv) then (ensureModelReady now txs sv).2 else sv in
  if isModelReady sv1 then
    match categorize (live sv1) (inputText description ty) with
    | Some prediction =>
        (if bool_decide (prediction = "") then "uncategorized" else prediction, sv1)
    | None => ("uncategorized", sv1)
    end
  else ("uncategorized", sv1).

(** The reference [classifier] points into the heap. *)
Definition wf_service (sv : Service) : Prop :=
  (classifier sv < length (objects sv))%nat.

(** The claim about training as the specification words it: the examples
    go into a new instance, the object that was live is left as it was,
    and the variable is swapped to the replacement. *)
Definition trains_aside (txs : list PopulatedTx) (sv sv' : Service) : Prop :=
  classifier sv' ≠ classifier sv
  ∧ objects sv' !! classifier sv = objects sv !! classifier sv
  ∧ live sv' = fold_left learn_tx txs bayes.

(** The recovery the specification asks of [loadModel], from [sv] to [sv']:
    whenever the primary file is missing, empty or malformed and the backup
    parses, the service is ready with the model of the backup and the
    primary file holds the text of the backup. *)
Definition recovers_from_backup (sv sv' : Service) : Prop :=
  ∀ b c,
    match model_file sv with
    | Some d => parse_primary d = None
    | None => True
    end →
    backup_file sv = Some b → fromJson b = Some c →
    isModelReady sv' = true ∧ live sv' = c ∧ model_file sv' = Some b.

End Classifier.

Arguments mkService {Classifier}.
Arguments objects {Classifier}.
Arguments classifier {Classifier}.
Arguments isModelReady {Classifier}.
Arguments lastTrainingDate {Classifier}.
Arguments model_file {Classifier}.
Arguments backup_file {Classifier}.
Arguments file_ops {Classifier}.
Arguments wf_service {Classifier}.

(* ===================================================================== *)
(** * Model evaluation: [router.post("/cross-validate")] *)
(* ===================================================================== *)

(** An entry of [results]: [{ fold, accuracy, testSamples }]. *)
Record FoldResult := mkFoldResult {
  fr_fold : nat;
  fr_accuracy : Q;
  fr_testSamples : nat
}.

Inductive CVResponse :=
| CVInsufficientData (k : nat)       (* 400 "Not enough data for k-fold cross validation" *)
| CVSuccess (k : nat) (averageAccuracy : Q) (folds : list FoldResult) (totalSamples : nat).

(** [req.body.k || 5] for a body whose [k], when present, is a count. *)
Definition effective_k (body_k : option nat) : nat :=
  match body_k with
  | Some (S n) => S n
  | _ => 5%nat
  end.

(** The quotient of two counts as a number. *)
Definition ratio (a b : nat) : Q :=
  (inject_Z (Z.of_nat a) / inject_Z (Z.of_nat b))%Q.

(** [transactions.slice(testStart, testEnd)] of fold [i] *)
Definition testData (txs : list PopulatedTx) (foldSize i : nat) : list PopulatedTx :=
  slice (i * foldSize) ((i + 1) * foldSize) txs.

(** [[...transactions.slice(0, testStart), ...transactions.slice(testEnd)]] *)
Definition trainingData (txs : list PopulatedTx) (foldSize i : nat) : list PopulatedTx :=
  slice 0 (i * foldSize) txs ++ slice_from ((i + 1) * foldSize) txs.

Section CrossValidation.

Variable Classifier : Type.
Variable bayes : Classifier.
Variable learn : Classifier → string → string → Classifier.
Variable categorize : Classifier → string → option string.

(** [parseFloat(x.toFixed(4))]; the quotients and sums themselves are
    taken exactly. *)
Variable round4 : Q → Q.

(** The number of [tx] of the test data with
    [actualCategory === predictedCategory]. *)
Definition correct_count (c : Classifier) (test : list PopulatedTx) : nat :=
  length (filter (λ tx, Some (categoryName tx)
                        = categorize c (inputText (ptx_description tx) (ptx_type tx)))
                 test).

(** One turn of the [for] loop: a temporary classifier learns the
    training data and is tested on the test data. *)
Definition run_fold (txs : list PopulatedTx) (foldSize i : nat) : FoldResult :=
  let test := testData txs foldSize i in
  let tempClassifier :=
    fold_left (learn_tx Classifier learn) (trainingData txs foldSize i) bayes in
  mkFoldResult (i + 1)
               (round4 (ratio (correct_count tempClassifier test) (length test)))
               (length test).

(** [results.reduce((sum, result) => sum + result.accuracy, 0) / results.length] *)
Definition avgAccuracy (results : list FoldResult) : Q :=
  (fold_left (λ sum result, sum + fr_accuracy result) results 0
   / inject_Z (Z.of_nat (length results)))%Q.

(** The handler on the collection [all] of stored transactions. *)
Definition crossValidate (body_k : option nat) (all : list PopulatedTx) : CVResponse :=
  let k := effective_k body_k in
  let transactions := take 500 all in
  if bool_decide (length transactions < k * 2)%nat then CVInsufficientData k
  else
    let foldSize := (length transactions / k)%nat in
    let results := run_fold transactions foldSize <$> seq 0 k in
    CVSuccess k (round4 (avgAccuracy results)) results (length transactions).

End CrossValidation.

(** The partition the specification asks of the folds: the test data of the
    [k] folds, one after the other, are the fetched transactions. *)
Definition folds_partition (k : nat) (txs : list PopulatedTx) : Prop :=
  concat (testData txs (length txs / k) <$> seq 0 k) = txs.
(* ===================================================================== *)
(** * Concrete stores and requests *)
(* ===================================================================== *)

Module Demo.

(** The handlers with [RegExp] read on the fragment above and id strings
    read as 24 hexadecimal digits. *)
Definition createWithPrediction : PredictBody → string → Store → Response * Store :=
  createWithPrediction fragment_RegExp_i hex_castObjectId.
Definition createTransaction : CreateBody → Store → Response * Store :=
  createTransaction hex_castObjectId.
Definition updateTransaction : nat → Patch → Store → Response * Store :=
  updateTransaction hex_castObjectId hex_toString.
Definition step : Op → Store → Response * Store :=
  step fragment_RegExp_i hex_castObjectId hex_toString.
Definition trace : Store → list Op → list Store :=
  trace fragment_RegExp_i hex_castObjectId hex_toString.

(** The id strings of the requests below: the user 7, the category 3, the
    saldos 1 and 2. *)
Definition user_7 : string := hex_toString 7.
Definition category_3 : string := hex_toString 3.
Definition saldo_1 : string := hex_toString 1.
Definition saldo_2 : string := hex_toString 2.

(** The wallet of the specification's scenarios: amount 100, no
    transaction. *)
Definition wallet : Store :=
  mkStore {[ 1%nat := mkSaldo "Wallet" 100 "cash" ]} ∅ [].

(** Scenarios 2 to 4: an income of 50, its amount changed to 80, then its
    deletion. *)
Definition scenario : list Op :=
  [ OpCreateModels (mkPredictBody user_7 saldo_1 50 "gaji bulanan" income) "gaji";
    OpUpdate 0 (mkPatch None None None (Some 80) None (Some income) true);
    OpDelete 0 ].

(** An income of 50 on the saldo 1 through [POST ""]. *)
Definition income_50 : CreateBody :=
  mkCreateBody user_7 category_3 saldo_1 50 "gaji" income.

(** Two empty wallets and an income of 50 bound to the first. *)
Definition two_wallets : Store :=
  mkStore {[ 1%nat := mkSaldo "A" 50 "a"; 2%nat := mkSaldo "B" 0 "b" ]}
          {[ 0%nat := mkTransaction 7 3 1 50 "gaji" income ]} [].

(** The patch that moves the transaction to wallet B. *)
Definition move_to_B : Patch :=
  mkPatch None None (Some saldo_2) (Some 50) None (Some income) true.

(** A wallet of 150 holding the income of 50 of scenario 2. *)
Definition wallet_150 : Store :=
  mkStore {[ 1%nat := mkSaldo "Wallet" 150 "cash" ]}
          {[ 0%nat := mkTransaction 7 3 1 50 "gaji" income ]} [].

(** Scenario 3 with a patch that names the amount only. *)
Definition amount_only : Patch := mkPatch None None None (Some 80) None None true.

(** A patch that names the type only. *)
Definition type_only : Patch := mkPatch None None None None None (Some income) true.

(** A wallet of 70 after an expense of 30. *)
Definition wallet_70 : Store :=
  mkStore {[ 1%nat := mkSaldo "Wallet" 70 "cash" ]}
          {[ 0%nat := mkTransaction 7 3 1 30 "pulsa" expense ]} [].

(** The expense raised to 500. *)
Definition raise_to_500 : Patch :=
  mkPatch None None None (Some 500) None (Some expense) true.

(** A wallet of 20: an income of 50 and an expense of 30. *)
Definition wallet_20 : Store :=
  mkStore {[ 1%nat := mkSaldo "Wallet" 20 "cash" ]}
          {[ 0%nat := mkTransaction 7 3 1 50 "gaji" income;
             1%nat := mkTransaction 7 4 1 30 "pulsa" expense ]} [].

(** Scenario 1: an expense of 150 on the wallet of 100. *)
Definition overdraft_models : PredictBody :=
  mkPredictBody user_7 saldo_1 150 "sewa kos" expense.
Definition overdraft_plain : CreateBody :=
  mkCreateBody user_7 category_3 saldo_1 150 "sewa kos" expense.

(** Two expense categories whose names differ in one character. *)
Definition e_money_dash : Category := mkCategory 0 "e-money" expense "top up".
Definition e_money_dot : Category := mkCategory 1 "e.money" expense "kartu".
Definition two_categories : list Category := [e_money_dash; e_money_dot].

(** Five stored transactions. *)
Definition five : list PopulatedTx :=
  [ mkPopulatedTx "gaji" income (Some "gaji");
    mkPopulatedTx "bonus" income (Some "gaji");
    mkPopulatedTx "pulsa" expense (Some "pulsa");
    mkPopulatedTx "kuota" expense (Some "pulsa");
    mkPopulatedTx "sewa" expense (Some "kos") ].

End Demo.

(* ===================================================================== *)
(** * A stand-in for the [bayes] package *)
(* ===================================================================== *)

(** The service is generic in the classifier.  To run it on concrete data
    the examples below use this stand-in: a classifier is the sequence of
    the pairs it has learned, it is written to a file as the text
    [bayes:] followed by one [text|label;] per pair, and it answers with
    the label of the latest pair learned for the very text, else with the
    label it learned first. *)
Module Toy.

Definition Classifier : Type := list (string * string).

Definition bayes : Classifier := [].

Definition learn (c : Classifier) (text label : string) : Classifier :=
  c ++ [(text, label)].

Definition categorize (c : Classifier) (text : string) : option string :=
  match c with
  | [] => None
  | (_, first) :: _ =>
      Some (default first
              (snd <$> List.find (λ e, bool_decide (e.1 = text)) (reverse c)))
  end.

Definition toJson (c : Classifier) : string :=
  "bayes:" +:+ fold_right (λ e r, e.1 +:+ "|" +:+ e.2 +:+ ";" +:+ r) "" c.

(** The pieces of [s] between the separators [sep]; [cur] is the piece
    being read. *)
Fixpoint split_on (sep : ascii) (s cur : string) : list string :=
  match s with
  | EmptyString => [cur]
  | String c r =>
      if bool_decide (c = sep) then cur :: split_on sep r ""
      else split_on sep r (cur +:+ String c "")
  end.

Fixpoint parse_entries (items : list string) : option Classifier :=
  match items with
  | [] => None
  | [last] => if bool_decide (last = "") then Some [] else None
  | item :: r =>
      match split_on "|" item "" with
      | [text; label] => cons (text, label) <$> parse_entries r
      | _ => None
      end
  end.

Fixpoint strip_prefix (p s : string) : option string :=
  match p, s with
  | EmptyString, _ => Some s
  | String a p', String b s' => if bool_decide (a = b) then strip_prefix p' s' else None
  | _, _ => None
  end.

Definition fromJson (s : string) : option Classifier :=
  match strip_prefix "bayes:" s with
  | Some body => parse_entries (split_on ";" body "")
  | None => None
  end.

Definition JSON_parse (s : string) : bool := bool_decide (is_Some (fromJson s)).

Definition Service : Type := Service Classifier.
Definition live : Service → Classifier := live Classifier bayes.
Definition loadModel : Service → bool * Service :=
  loadModel Classifier bayes fromJson JSON_parse.
Definition trainClassifier : nat → list PopulatedTx → Service → bool * Service :=
  trainClassifier Classifier bayes learn toJson.
Definition predictCategory
  : nat → list PopulatedTx → string → TxType → Service → string * Service :=
  predictCategory Classifier bayes learn categorize toJson.

(** A stand-in for [parseFloat(x.toFixed(4))]: the nearest multiple of
    1/10000 of an exact quotient, a tie going up. *)
Definition round4 (x : Q) : Q :=
  (Qfloor (x * 10000 + 1 / 2) # 10000)%Q.

Definition crossValidate : option nat → list PopulatedTx → CVResponse :=
  crossValidate Classifier bayes learn categorize round4.

(** A classifier that has learned one salary. *)
Definition salary_model : Classifier := [("gaji bulanan income", "gaji")].

(** A ready service whose live classifier is [salary_model]. *)
Definition ready_service : Service :=
  mkService [salary_model] 0 true (Some 1%nat)
            (Some (toJson salary_model)) None [].

(** One stored transaction, a phone top-up. *)
Definition one_topup : list PopulatedTx :=
  [mkPopulatedTx "Pulsa" expense (Some "pulsa")].

(** At start-up: no primary file, a backup holding [salary_model]. *)
Definition only_backup : Service :=
  mkService [bayes] 0 false None None (Some (toJson salary_model)) [].

(** At start-up: a primary file cut short, a backup holding
    [salary_model]. *)
Definition corrupt_primary : Service :=
  mkService [bayes] 0 false None (Some "bayes:gaji bul")
            (Some (toJson salary_model)) [].

(** At start-up: an empty primary file and a backup cut short. *)
Definition both_corrupt : Service :=
  mkService [bayes] 0 false None (Some "  ") (Some "bayes:gaji bul") [].

End Toy.

From stdpp Require Import pretty.

Open Scope Z_scope.

(* ===================================================================== *)
(** * Saldo routes: [controller/saldoController.js] *)
(* ===================================================================== *)

(** Body of [POST ""] of the saldo routes: [{ name, amount, description }]. *)
Record SaldoBody := mkSaldoBody {
  sb_name : string;
  sb_amount : Z;
  sb_description : string
}.

(** Body of [PUT /:id] of the saldo routes: every field is [optional: true]. *)
Record SaldoPatch := mkSaldoPatch {
  sp_name : option string;
  sp_amount : option Z;
  sp_description : option string
}.

(** The saldo ids the stored transactions refer to. *)
Definition referenced_saldos (st : Store) : gset nat :=
  map_img (tx_saldo <$> transactions st).

(** The id of a new saldo document: an id that no stored saldo has and no
    stored transaction refers to (an [ObjectId] is never handed out twice). *)
Definition new_saldo_id (st : Store) : nat :=
  fresh (dom (saldos st) ∪ referenced_saldos st).

(** [router.post("")] of the saldo routes, after validation:
    [Saldo.create({ name, amount, description })].  The answer carries the
    id of the new document. *)
Definition createSaldo (b : SaldoBody) (st : Store) : nat * Store :=
  let id := new_saldo_id st in
  (id, mkStore (<[id := mkSaldo (sb_name b) (sb_amount b) (sb_description b)]> (saldos st))
               (transactions st) (categories st)).

(** [router.get("/:id")] of the saldo routes: the document, or 404. *)
Definition getSaldo (id : nat) (st : Store) : option Saldo := saldos st !! id.

Definition apply_saldo_patch (sd : Saldo) (p : SaldoPatch) : Saldo :=
  mkSaldo (default (saldo_name sd) (sp_name p))
          (default (saldo_amount sd) (sp_amount p))
          (default (saldo_description sd) (sp_description p)).

(** [router.put("/:id")] of the saldo routes, after validation:
    [Saldo.findByIdAndUpdate(id, req.body, { new: true })], 404 when there
    is no such document. *)
Definition updateSaldo (id : nat) (p : SaldoPatch) (st : Store) : Response * Store :=
  match saldos st !! id with
  | Some sd =>
      (Ok200, mkStore (<[id := apply_saldo_patch sd p]> (saldos st))
                      (transactions st) (categories st))
  | None => (SaldoNotFound, st)
  end.

(** [router.delete("/:id")] of the saldo routes:
    [Saldo.findByIdAndDelete(id)], 404 when there is no such document. *)
Definition deleteSaldo (id : nat) (st : Store) : Response * Store :=
  match saldos st !! id with
  | Some _ => (Ok200, mkStore (delete id (saldos st)) (transactions st) (categories st))
  | None => (SaldoNotFound, st)
  end.

(** The opening amounts after the amount of saldo [s] has been moved by
    [d]. *)
Definition rebase (opening : nat → Z) (s : nat) (d : Z) : nat → Z :=
  λ k, if bool_decide (k = s) then opening k + d else opening k.

(* ===================================================================== *)
(** * Category routes: the second part of [controller/dashboardController.js] *)
(* ===================================================================== *)

(** Body of [POST /] of the category routes: [{ name, type, description }]. *)
Record CategoryBody := mkCategoryBody {
  kb_name : string;
  kb_type : TxType;
  kb_description : string
}.

(** [router.post("/")] of the category routes, after validation:
    [Category.create(req.body)].  Nothing is looked up before. *)
Definition createCategory (b : CategoryBody) (st : Store) : Category * Store :=
  let '(c, cats) := Category_create (kb_name b) (kb_type b) (kb_description b)
                                    (categories st) in
  (c, mkStore (saldos st) (transactions st) cats).

(** [router.delete("/:id")] of the category routes:
    [Category.findByIdAndDelete(id)]; [None] is the 404.  An [_id] names
    one document of a collection, so removing the document found removes
    every document with that id. *)
Definition deleteCategory (id : nat) (st : Store) : option Store :=
  match List.find (λ c, bool_decide (cat_id c = id)) (categories st) with
  | Some _ =>
      Some (mkStore (saldos st) (transactions st)
                    (filter (λ c, cat_id c ≠ id) (categories st)))
  | None => None
  end.

(** [.populate("category")] for one transaction: the name of the category
    document its reference resolves to. *)
Definition populate (cats : list Category) (t : Transaction) : PopulatedTx :=
  mkPopulatedTx (tx_description t) (tx_type t)
                (cat_name <$> List.find (λ c, bool_decide (cat_id c = tx_category t)) cats).

(** Category ids are those of distinct documents. *)
Definition distinct_category_ids (st : Store) : Prop :=
  NoDup (cat_id <$> categories st).

(** Every stored transaction refers to a stored category. *)
Definition categories_resolve (st : Store) : Prop :=
  map_Forall (λ _ t, tx_category t ∈ cat_id <$> categories st) (transactions st).

(* ===================================================================== *)
(** * Paging of the [/list] routes *)
(* ===================================================================== *)

(** [find().sort({ createdAt: -1 }).skip((page - 1) * limit).limit(limit)]
    on the collection in descending order of [createdAt], for [page >= 1]
    and [limit >= 1], as the three [/list] routes compute it. *)
Definition list_page {A} (page limit : nat) (sorted : list A) : list A :=
  take limit (drop ((page - 1) * limit) sorted).

(** [Math.ceil(total / limit)] for [limit >= 1]. *)
Definition page_count (total limit : nat) : nat :=
  ((total + limit - 1) / limit)%nat.

(* ===================================================================== *)
(** * Requests and stores used by the properties below *)
(* ===================================================================== *)

(** The two creation routes. *)
Definition is_create (op : Op) : bool :=
  match op with
  | OpCreateModels _ _ | OpCreate _ => true
  | _ => false
  end.

(** The body of [POST ""] that names the documents of the transaction [t]
    by the strings of their ids. *)
Definition body_of (ObjectId_toString : nat → string) (t : Transaction) : CreateBody :=
  mkCreateBody (ObjectId_toString (tx_user t)) (ObjectId_toString (tx_category t))
               (ObjectId_toString (tx_saldo t))
               (tx_amount t) (tx_description t) (tx_type t).

(** A string of ASCII characters: on these [toLowerCase] above is
    [String.prototype.toLowerCase]. *)
Fixpoint ascii_only (s : string) : bool :=
  match s with
  | EmptyString => true
  | String c r => (nat_of_ascii c <? 128)%nat && ascii_only r
  end.

(** What a request answered with [r], not 200, has written when it took the
    store from [st] to [st']: no transaction; at most one category; no
    saldo unless [r] is the refusal of [Transaction.create] or of
    [findByIdAndUpdate], which comes after [saldo.save()], and then one
    saldo with a new amount. *)
Definition failure_writes (st st' : Store) (r : Response) : Prop :=
  transactions st' = transactions st
  ∧ (∃ extra, categories st' = categories st ++ extra ∧ (length extra ≤ 1)%nat)
  ∧ (r ≠ CreateRejected → r ≠ UpdateRejected → saldos st' = saldos st)
  ∧ (r = CreateRejected ∨ r = UpdateRejected →
     ∃ s sd a, saldos st !! s = Some sd
               ∧ saldos st' = <[s := mkSaldo (saldo_name sd) a (saldo_description sd)]>
                                (saldos st)).

(* ===================================================================== *)
(** * The reset route of the classifier *)
(* ===================================================================== *)

Section ClassifierRoutes.

Variable Classifier : Type.
Variable bayes : Classifier.

(** The [try] of [router.post("/reset-model")]: both files are removed,
    then [classifier = bayes(); isModelReady = false;
    lastTrainingDate = null].  ([FileOp] has an entry for the removal of
    the primary file only; the removal of the backup leaves no entry in
    [file_ops].) *)
Definition resetModel (sv : Service Classifier) : Service Classifier :=
  let sv1 := match model_file sv with
             | Some _ => file_op Classifier UnlinkPrimary None (backup_file sv) sv
             | None => sv
             end in
  let sv2 := mkService (objects sv1) (classifier sv1) (isModelReady sv1)
                       (lastTrainingDate sv1) (model_file sv1) None (file_ops sv1) in
  set_lastTrainingDate Classifier None
    (set_ready Classifier false (assign_new Classifier bayes sv2)).

End ClassifierRoutes.

(* ===================================================================== *)
(** * Model evaluation: [router.post("/evaluate-model")] *)
(* ===================================================================== *)

(** An entry of [predictions]:
    [{ description, type, actualCategory, predictedCategory, isCorrect }];
    [predictedCategory] is [None] when [categorize] answers [undefined]. *)
Record Prediction := mkPrediction {
  pr_description : string;
  pr_type : TxType;
  pr_actualCategory : string;
  pr_predictedCategory : option string;
  pr_isCorrect : bool
}.

(** A label as a property name of the matrix: [undefined] becomes the name
    [undefined].  (Property names are taken to be ordinary ones; a label
    [__proto__] is outside the model.) *)
Definition label_key (l : option string) : string := default "undefined" l.

Definition predicted_key (item : Prediction) : string :=
  label_key (pr_predictedCategory item).

(** The property names [categories] gives to the matrix: every actual and
    every predicted label of the test data. *)
Definition seen_categories (testData : list Prediction) : gset string :=
  list_to_set (flat_map (λ item, [pr_actualCategory item; predicted_key item]) testData).

(** The matrix after "Initialize matrix": a row for every category, a zero
    in every row for every category. *)
Definition init_matrix (cats : gset string) : gmap string (gmap string nat) :=
  gset_to_gmap (gset_to_gmap 0%nat cats) cats.

(** [matrix[a][p]++], on a matrix that has the row [a]. *)
Definition bump (m : gmap string (gmap string nat)) (a p : string)
    : gmap string (gmap string nat) :=
  match m !! a with
  | Some row => <[a := <[p := S (default 0%nat (row !! p))]> row]> m
  | None => m
  end.

(** [generateConfusionMatrix(testData)] *)
Definition generateConfusionMatrix (testData : list Prediction)
    : gmap string (gmap string nat) :=
  fold_left (λ m item, bump m (pr_actualCategory item) (predicted_key item))
            testData (init_matrix (seen_categories testData)).

(** [matrix[a][p] || 0] *)
Definition cell (m : gmap string (gmap string nat)) (a p : string) : nat :=
  default 0%nat (m !! a ≫= (λ row, row !! p)).

(** [Object.keys(matrix)] *)
Definition matrix_keys (m : gmap string (gmap string nat)) : list string :=
  (map_to_list m).*1.

(** The two sums of [calculateMetrics] for [category]. *)
Definition falsePositives (m : gmap string (gmap string nat)) (category : string) : nat :=
  sum_list_with (λ other, if bool_decide (other = category) then 0%nat
                          else cell m other category) (matrix_keys m).

Definition falseNegatives (m : gmap string (gmap string nat)) (category : string) : nat :=
  sum_list_with (λ other, if bool_decide (other = category) then 0%nat
                          else cell m category other) (matrix_keys m).

(** [num / den || 0]: the quotient, and 0 where it is [NaN] or 0. *)
Definition or_zero (num den : Q) : Q :=
  if Qeq_bool den 0 then 0%Q else (num / den)%Q.

(** An entry of [metrics]: [{ precision, recall, f1Score, support }]. *)
Record Metrics := mkMetrics {
  m_precision : Q;
  m_recall : Q;
  m_f1Score : Q;
  m_support : nat
}.

(** [Math.floor(n * 0.8)].  The double [0.8] exceeds 4/5 by the factor
    [1 + 2^-54], so the product rounds to [4n/5] when that is an integer
    and otherwise stays strictly between the same two integers as
    [4n/5]. *)
Definition splitIndex (n : nat) : nat := (4 * n / 5)%nat.

(** The number of test items with the actual label [a] and the predicted
    label [p], with the actual label [a], with the predicted label [p]. *)
Definition count_pair (a p : string) (testData : list Prediction) : nat :=
  length (filter (λ item, pr_actualCategory item = a ∧ predicted_key item = p) testData).

Definition count_actual (a : string) (testData : list Prediction) : nat :=
  length (filter (λ item, pr_actualCategory item = a) testData).

Definition count_predicted (p : string) (testData : list Prediction) : nat :=
  length (filter (λ item, predicted_key item = p) testData).

(** Every row is there, and every row has every column. *)
Definition full_matrix (cats : gset string) (m : gmap string (gmap string nat)) : Prop :=
  dom m = cats ∧ ∀ a row, m !! a = Some row → dom row = cats.

Section Evaluation.

Variable Classifier : Type.
Variable bayes : Classifier.
Variable learn : Classifier → string → string → Classifier.
Variable categorize : Classifier → string → option string.

(** [parseFloat(x.toFixed(4))] *)
Variable round4 : Q → Q.

(** The body of [categories.forEach] in [calculateMetrics]. *)
Definition metrics_of (m : gmap string (gmap string nat)) (category : string) : Metrics :=
  let truePositives := cell m category category in
  let tp := inject_Z (Z.of_nat truePositives) in
  let precision :=
    or_zero tp (inject_Z (Z.of_nat (truePositives + falsePositives m category))) in
  let recall :=
    or_zero tp (inject_Z (Z.of_nat (truePositives + falseNegatives m category))) in
  let f1Score := or_zero (2 * (precision * recall))%Q (precision + recall)%Q in
  mkMetrics (round4 precision) (round4 recall) (round4 f1Score)
            (truePositives + falseNegatives m category).

(** [calculateMetrics(matrix)]: an entry for every key of the matrix. *)
Definition calculateMetrics (m : gmap string (gmap string nat)) : gmap string Metrics :=
  map_imap (λ category _, Some (metrics_of m category)) m.

(** The prediction for one transaction of the test data. *)
Definition predict_tx (tempClassifier : Classifier) (tx : PopulatedTx) : Prediction :=
  let predictedCategory :=
    categorize tempClassifier (inputText (ptx_description tx) (ptx_type tx)) in
  mkPrediction (ptx_description tx) (ptx_type tx) (categoryName tx) predictedCategory
               (bool_decide (Some (categoryName tx) = predictedCategory)).

Inductive EvalResponse :=
| EvalInsufficientData   (* 400 "Not enough data for evaluation (min 10 transactions)" *)
| EvalSuccess (accuracy : Q) (totalTestSamples : nat)
              (confusionMatrix : gmap string (gmap string nat))
              (metrics : gmap string Metrics)
              (predictions : list Prediction).

(** The predictions of the handler: a temporary classifier learns the
    first [splitIndex] transactions and labels the others. *)
Definition evaluation_predictions (allTransactions : list PopulatedTx) : list Prediction :=
  let index := splitIndex (length allTransactions) in
  let trainingData := slice 0 index allTransactions in
  let testData := slice_from index allTransactions in
  let tempClassifier := fold_left (learn_tx Classifier learn) trainingData bayes in
  predict_tx tempClassifier <$> testData.

(** The handler on the collection [all] of stored transactions. *)
Definition evaluateModel (all : list PopulatedTx) : EvalResponse :=
  let allTransactions := take 1000 all in
  if bool_decide (length allTransactions < 10)%nat then EvalInsufficientData
  else
    let predictions := evaluation_predictions allTransactions in
    let accuracy :=
      ratio (length (filter (λ p, pr_isCorrect p = true) predictions))
            (length predictions) in
    let confusionMatrix := generateConfusionMatrix predictions in
    EvalSuccess (round4 accuracy) (length predictions) confusionMatrix
                (calculateMetrics confusionMatrix) (take 20 predictions).

End Evaluation.

(* ===================================================================== *)
(** * Dashboard routes: the first part of [controller/dashboardController.js] *)
(* ===================================================================== *)

(** What the two aggregations read of a stored transaction: the year and
    the month (1 to 12) of [createdAt] in UTC, the type and the amount. *)
Record DatedTx := mkDatedTx {
  dt_year : Z;
  dt_month : nat;
  dt_type : TxType;
  dt_amount : Z
}.

(** The [$group] stage with [total: { $sum: "$amount" }]: one document per
    key, holding the sum of the amounts of the documents with that key.
    The order of the groups is not specified and no handler depends on it;
    the result is kept as a map from key to total. *)
Definition group_totals `{Countable K} (key : DatedTx → K) (docs : list DatedTx)
    : gmap K Z :=
  fold_right (λ d acc, <[key d := default 0 (acc !! key d) + dt_amount d]> acc) ∅ docs.

Definition monthNames : list string :=
  ["Jan"; "Feb"; "Mar"; "Apr"; "May"; "Jun"; "Jul"; "Aug"; "Sep"; "Oct"; "Nov"; "Dec"].

(** An entry of [income] or of [expense]: [{ date, total }]. *)
Record ChartPoint := mkChartPoint {
  cp_date : string;
  cp_total : Z
}.

(** [router.get("/chart/:year")] for a year of four digits below 9999, so
    that both date strings parse: the [$match] keeps the transactions
    created in that year. *)
Definition chart (year : Z) (docs : list DatedTx) : list ChartPoint * list ChartPoint :=
  let transactions :=
    group_totals (λ d, (dt_month d, type_name (dt_type d)))
                 (filter (λ d, dt_year d = year) docs) in
  let point (ty : string) (m : nat) :=
    mkChartPoint (default "" (monthNames !! (m - 1)%nat) +:+ " " +:+ pretty year)
                 (default 0 (transactions !! (m, ty))) in
  (point "income" <$> seq 1 12, point "expense" <$> seq 1 12).

(** The year [Date.UTC(year, ...)] means: a year from 0 to 99 stands for
    1900 plus that year. *)
Definition utc_year (year : Z) : Z :=
  if (0 <=? year) && (year <=? 99) then 1900 + year else year.

Inductive SummaryResponse :=
| SummaryInvalid    (* 400 "Invalid month or year" *)
| SummaryOk (income expense : Z) (month year : Z).

(** [router.get("/summary")]; [month] and [year] are the results of
    [parseInt], [None] for [NaN]. *)
Definition summary (month year : option Z) (docs : list DatedTx) : SummaryResponse :=
  match month, year with
  | Some month, Some year =>
      if bool_decide (month = 0) || bool_decide (year = 0)
         || (month <? 1) || (12 <? month)
      then SummaryInvalid
      else
        let result :=
          group_totals (λ d, type_name (dt_type d))
                       (filter (λ d, dt_year d = utc_year year
                                     ∧ Z.of_nat (dt_month d) = month) docs) in
        SummaryOk (default 0 (result !! "income")) (default 0 (result !! "expense"))
                  month year
  | _, _ => SummaryInvalid
  end.

(** The sum of the amounts of the transactions of one type created in one
    month. *)
Definition month_total (year : Z) (month : nat) (ty : TxType) (docs : list DatedTx) : Z :=
  foldr Z.add 0
        (dt_amount <$> filter (λ d, dt_year d = year ∧ dt_month d = month ∧ dt_type d = ty)
                              docs).

(* ===================================================================== *)
(** * More concrete stores, services and test data *)
(* ===================================================================== *)

Module Cases.

(** Scenario 3: the amount 80, the type named again. *)
Definition to_80 : Patch := mkPatch None None None (Some 80) None (Some income) true.

(** An income whose user is a name, not an id. *)
Definition income_of_budi : CreateBody :=
  mkCreateBody "budi" Demo.category_3 Demo.saldo_1 50 "gaji" income.

(** An income with a negative amount. *)
Definition negative_income : PredictBody :=
  mkPredictBody Demo.user_7 Demo.saldo_1 (-500) "koreksi" income.

(** A wallet with the id 10, written [...00a], holding an income of 50. *)
Definition wallet_a : Store :=
  mkStore {[ 10%nat := mkSaldo "Wallet" 150 "cash" ]}
          {[ 0%nat := mkTransaction 7 3 10 50 "gaji" income ]} [].

(** Scenario 3 with the id of the wallet spelled in upper case. *)
Definition to_80_upper : Patch :=
  mkPatch None None (Some "00000000000000000000000A") (Some 80) None (Some income) true.

(** A second saldo, opened with 250. *)
Definition savings : SaldoBody := mkSaldoBody "Tabungan" 250 "bank".

(** An edit that sets the amount of a saldo to 500. *)
Definition set_500 : SaldoPatch := mkSaldoPatch None (Some 500) None.

(** The wallet of 100 with the two categories of [Demo]. *)
Definition wallet_with_categories : Store :=
  mkStore {[ 1%nat := mkSaldo "Wallet" 100 "cash" ]} ∅ Demo.two_categories.

(** An expense of 20 for a phone top-up. *)
Definition topup_20 : PredictBody :=
  mkPredictBody Demo.user_7 Demo.saldo_1 20 "pulsa" expense.

(** The wallet after an expense of 20 filed under the category with id 1. *)
Definition wallet_80 : Store :=
  mkStore {[ 1%nat := mkSaldo "Wallet" 80 "cash" ]}
          {[ 0%nat := mkTransaction 7 1 1 20 "kartu" expense ]}
          Demo.two_categories.

(** Seven documents in descending order of creation. *)
Definition seven : list nat := [7; 6; 5; 4; 3; 2; 1]%nat.

(** Ten stored transactions. *)
Definition ten : list PopulatedTx :=
  Demo.five ++
  [ mkPopulatedTx "gaji" income (Some "gaji");
    mkPopulatedTx "pulsa" expense (Some "pulsa");
    mkPopulatedTx "thr" income (Some "gaji");
    mkPopulatedTx "pulsa" expense (Some "pulsa");
    mkPopulatedTx "arisan" expense None ].

(** Four predictions: two top-ups found, one rent taken for a top-up, one
    top-up the classifier had no answer for. *)
Definition four_predictions : list Prediction :=
  [ mkPrediction "pulsa" expense "pulsa" (Some "pulsa") true;
    mkPrediction "kuota" expense "pulsa" (Some "pulsa") true;
    mkPrediction "sewa" expense "kos" (Some "pulsa") false;
    mkPrediction "token" expense "pulsa" None false ].

(** Transactions of May 2024, of June 2024 and of May 1924. *)
Definition dated : list DatedTx :=
  [ mkDatedTx 2024 5 income 50;
    mkDatedTx 2024 5 expense 20;
    mkDatedTx 2024 5 income 30;
    mkDatedTx 2024 6 expense 70;
    mkDatedTx 1924 5 income 9 ].

End Cases.
(* ===================================================================== *)
(** * Proofs: sums over the transaction collection *)
(* ===================================================================== *)

Section BoundSum.

Implicit Types (txs : gmap nat Transaction) (t : Transaction) (s i : nat).

Lemma bound_sum_empty s : bound_sum s ∅ = 0.
Proof. unfold bound_sum. by rewrite map_fold_empty. Qed.

Lemma bound_sum_insert_new s i t txs :
  txs !! i = None →
  bound_sum s (<[i := t]> txs) = bound_effect s t + bound_sum s txs.
Proof.
  intros Hi. unfold bound_sum.
  rewrite map_fold_insert_L; [done | | done].
  intros. lia.
Qed.

Lemma bound_sum_delete s i t txs :
  txs !! i = Some t →
  bound_sum s (delete i txs) = bound_sum s txs - bound_effect s t.
Proof.
  intros Hi. unfold bound_sum.
  rewrite (map_fold_delete_L _ _ i t txs); [lia | | done].
  intros. lia.
Qed.

Lemma bound_sum_insert_over s i t t' txs :
  txs !! i = Some t →
  bound_sum s (<[i := t']> txs) = bound_sum s txs - bound_effect s t + bound_effect s t'.
Proof.
  intros Hi. rewrite <- insert_delete_eq.
  rewrite bound_sum_insert_new by apply lookup_delete_eq.
  rewrite (bound_sum_delete s i t) by done. lia.
Qed.

Lemma fresh_id_unused txs : txs !! fresh (dom txs) = None.
Proof. apply not_elem_of_dom, is_fresh. Qed.

End BoundSum.

Section LedgerInvariant.

Variable RegExp_i : string → option (string → bool).
Variable castObjectId : string → option nat.
Variable ObjectId_toString : nat → string.
Variable opening : nat → Z.

Implicit Types (st : Store) (t : Transaction) (s i : nat).

Local Abbreviation supported_ := (supported castObjectId ObjectId_toString).
Local Abbreviation step_ := (step RegExp_i castObjectId ObjectId_toString).

Lemma bound_effect_same t : bound_effect (tx_saldo t) t = effect t.
Proof. unfold bound_effect. by rewrite bool_decide_eq_true_2. Qed.

Lemma bound_effect_other s t : tx_saldo t ≠ s → bound_effect s t = 0.
Proof. intros. unfold bound_effect. by rewrite bool_decide_eq_false_2. Qed.

(** What a patch that the update accepts leaves of a transaction. *)
Lemma apply_patch_Some t p t' :
  apply_patch castObjectId t p = Some t' →
  cast_field castObjectId (tx_user t) (p_user p) = Some (tx_user t')
  ∧ cast_field castObjectId (tx_category t) (p_category p) = Some (tx_category t')
  ∧ cast_field castObjectId (tx_saldo t) (p_saldo p) = Some (tx_saldo t')
  ∧ tx_amount t' = default (tx_amount t) (p_amount p)
  ∧ tx_description t' = default (tx_description t) (p_description p)
  ∧ tx_type t' = default (tx_type t) (p_type p)
  ∧ p_others_cast p = true.
Proof.
  unfold apply_patch. destruct (p_others_cast p); [|discriminate].
  destruct (cast_field _ (tx_user t) _) as [u|]; [|discriminate].
  destruct (cast_field _ (tx_category t) _) as [c|]; [|discriminate].
  destruct (cast_field _ (tx_saldo t) _) as [s|]; [|discriminate].
  cbn. by intros [= <-].
Qed.

(** Storing a new transaction together with its effect on its saldo. *)
Lemma ledger_inv_create st t sd :
  ledger_inv opening st →
  saldos st !! tx_saldo t = Some sd →
  ledger_inv opening
    (Transaction_create t (save_saldo (tx_saldo t) sd (saldo_amount sd + effect t) st)).
Proof.
  intros Hinv Hsd k sd' Hk. cbn in *.
  rewrite bound_sum_insert_new by apply fresh_id_unused.
  destruct (decide (k = tx_saldo t)) as [->|Hne].
  - rewrite lookup_insert_eq in Hk. injection Hk as <-. cbn.
    rewrite bound_effect_same, (Hinv _ _ Hsd). lia.
  - rewrite lookup_insert_ne in Hk by done.
    rewrite bound_effect_other by done. rewrite (Hinv _ _ Hk). lia.
Qed.

Lemma createTransaction_inv b st :
  ledger_inv opening st →
  supported_ st (OpCreate b) = true →
  ledger_inv opening (createTransaction castObjectId b st).2.
Proof.
  intros Hinv Hsup. unfold createTransaction.
  apply andb_prop in Hsup as [_ Hids].
  apply andb_prop in Hids as [[u Hu]%bool_decide_eq_true [c Hc]%bool_decide_eq_true].
  destruct (castObjectId (cb_saldo b)) as [s|]; [|done].
  destruct (saldos st !! s) as [sd|] eqn:Hsd; [|done].
  rewrite Hu, Hc. cbn [snd].
  pose (t := mkTransaction u c s (cb_amount b) (cb_description b) (cb_type b)).
  pose proof (ledger_inv_create st t sd Hinv Hsd) as H.
  unfold t, effect in H; cbn in H.
  destruct (cb_type b); cbn in *; [done|].
  by replace (saldo_amount sd - cb_amount b) with (saldo_amount sd + - cb_amount b) by lia.
Qed.

Lemma ledger_inv_categories st cats :
  ledger_inv opening st →
  ledger_inv opening (mkStore (saldos st) (transactions st) cats).
Proof. done. Qed.

Lemma createWithPrediction_inv b l st :
  ledger_inv opening st →
  supported_ st (OpCreateModels b l) = true →
  ledger_inv opening (createWithPrediction RegExp_i castObjectId b l st).2.
Proof.
  intros Hinv Hsup. unfold createWithPrediction.
  apply andb_prop in Hsup as [_ [u Hu]%bool_decide_eq_true].
  destruct (castObjectId (pb_saldo b)) as [s|]; [|done].
  destruct (saldos st !! s) as [sd|] eqn:Hsd; [|done].
  destruct (resolveCategory _ _ _ _) as [[c cats]|]; [|done].
  case_match; [done|]. rewrite Hu. cbn [snd].
  pose (t := mkTransaction u (cat_id c) s (pb_amount b) (pb_description b) (pb_type b)).
  pose proof (ledger_inv_create (mkStore (saldos st) (transactions st) cats) t sd
                (ledger_inv_categories st cats Hinv) Hsd) as Hc.
  unfold t, effect in Hc; cbn in Hc.
  destruct (pb_type b); cbn in *; [done|].
  by replace (saldo_amount sd - pb_amount b) with (saldo_amount sd + - pb_amount b) by lia.
Qed.

Lemma deleteTransaction_inv id st :
  ledger_inv opening st → ledger_inv opening (deleteTransaction id st).2.
Proof.
  intros Hinv. unfold deleteTransaction.
  destruct (transactions st !! id) as [t|] eqn:Ht; [|done].
  destruct (saldos st !! tx_saldo t) as [sd|] eqn:Hsd; [|done].
  intros k sd' Hk. cbn in *.
  rewrite (bound_sum_delete k id t) by done.
  destruct (decide (k = tx_saldo t)) as [->|Hne].
  - rewrite lookup_insert_eq in Hk. injection Hk as <-. cbn.
    rewrite bound_effect_same, (Hinv _ _ Hsd).
    unfold revert, effect. destruct (tx_type t); lia.
  - rewrite lookup_insert_ne in Hk by done.
    rewrite bound_effect_other by done. rewrite (Hinv _ _ Hk). lia.
Qed.

Lemma updateTransaction_inv id p st :
  ledger_inv opening st →
  supported_ st (OpUpdate id p) = true →
  ledger_inv opening (updateTransaction castObjectId ObjectId_toString id p st).2.
Proof.
  intros Hinv Hsup. unfold updateTransaction.
  apply andb_prop in Hsup as [_ Hsup].
  destruct (transactions st !! id) as [t|] eqn:Ht; [|done].
  destruct (saldos st !! tx_saldo t) as [sd|] eqn:Hsd; [|done].
  apply andb_prop in Hsup as [Hsup Hpatch].
  apply andb_prop in Hsup as [Hsame%bool_decide_eq_true [ty Hty]%bool_decide_eq_true].
  destruct (apply_patch castObjectId t p) as [t'|] eqn:Ht'; [|discriminate].
  apply bool_decide_eq_true in Hpatch as Hbound.
  apply apply_patch_Some in Ht' as Hfields.
  destruct Hfields as (_ & _ & _ & Hamount & _ & Htype & _).
  rewrite Hsame. destruct (reapply p _) as [a|] eqn:Ha; [|done].
  unfold reapply in Ha. rewrite Hty in Ha.
  assert (a = revert t (saldo_amount sd) + effect t') as ->.
  { unfold effect. rewrite Htype, Hamount, Hty. cbn.
    destruct (p_amount p) as [x|]; [|by destruct ty].
    destruct ty; simpl in Ha; injection Ha as <-; cbn; lia. }
  unfold save_then_update, Transaction_findByIdAndUpdate.
  cbn [transactions save_saldo]. rewrite Ht, Ht'. cbn [mbind option_bind snd].
  intros k sd' Hk. cbn [saldos transactions save_saldo] in *.
  rewrite (bound_sum_insert_over k id t) by done.
  destruct (decide (k = tx_saldo t)) as [->|Hne].
  - rewrite lookup_insert_eq in Hk. injection Hk as <-. cbn.
    replace (bound_effect (tx_saldo t) t') with (effect t')
      by (rewrite <- Hbound; symmetry; apply bound_effect_same).
    rewrite bound_effect_same, (Hinv _ _ Hsd).
    unfold revert, effect. destruct (tx_type t), (tx_type t'); lia.
  - rewrite lookup_insert_ne in Hk by done.
    rewrite !bound_effect_other by congruence.
    rewrite (Hinv _ _ Hk). lia.
Qed.

Lemma step_inv op st :
  ledger_inv opening st → supported_ st op = true →
  ledger_inv opening (step_ op st).2.
Proof.
  destruct op; cbn [step]; intros Hinv Hsup.
  - by apply createWithPrediction_inv.
  - by apply createTransaction_inv.
  - by apply updateTransaction_inv.
  - by apply deleteTransaction_inv.
Qed.

End LedgerInvariant.
(** C1 (as amended): along every sequence of create, update and delete
    requests in which the id strings cast after a save do cast, every
    update carries a [type] and keeps the transaction on its saldo, and
    the amounts added and subtracted are safe integers, after each request
    the amount of every saldo equals its opening amount plus the sum of
    the signed effects (income [+amount], expense [-amount]) of the stored
    transactions bound to it. *)
Theorem ledger_invariant_along_runs RegExp_i castObjectId ObjectId_toString
    (opening : nat → Z) (st : Store) (ops : list Op) :
  ledger_inv opening st →
  supported_run RegExp_i castObjectId ObjectId_toString st ops = true →
  Forall (ledger_inv opening) (trace RegExp_i castObjectId ObjectId_toString st ops).
Proof.
  revert st. induction ops as [|op ops IH]; intros st Hinv Hsup; cbn in *.
  - constructor.
  - apply andb_prop in Hsup as [Hop Hrest].
    pose proof (step_inv RegExp_i castObjectId ObjectId_toString opening op st Hinv Hop)
      as Hnext.
    constructor; [done|]. by apply IH.
Qed.

Lemma ledger_invariant_along_runs_witness :
  Forall (ledger_inv (λ _, 100)) (Demo.trace Demo.wallet Demo.scenario)
  ∧ amount_of 1 <$> Demo.trace Demo.wallet Demo.scenario
    = [Some 150; Some 180; Some 100].
Proof.
  split.
  - apply ledger_invariant_along_runs.
    + refine (bool_decide_unpack _ _). vm_compute. exact I.
    + vm_compute. reflexivity.
  - vm_compute. reflexivity.
Defined.

(** C1 (as stated) fails twice.  A saldo created with an amount owes it to
    no transaction: after the first income the amount is the opening amount
    plus the income.  And from a store where the claim holds, an update that
    moves the transaction to another saldo commits and leaves the original
    saldo with an amount no transaction accounts for. *)
Lemma ledger_claim_counterexample :
  ((Demo.step (OpCreate Demo.income_50) Demo.wallet).1 = Ok200
   ∧ ¬ ledger_claim (Demo.step (OpCreate Demo.income_50) Demo.wallet).2)
  ∧ (ledger_claim Demo.two_wallets
     ∧ (Demo.updateTransaction 0 Demo.move_to_B Demo.two_wallets).1 = Ok200
     ∧ ¬ ledger_claim (Demo.updateTransaction 0 Demo.move_to_B Demo.two_wallets).2).
Proof.
  repeat split.
  - refine (proj1 (bool_decide_eq_false _) _). vm_compute. reflexivity.
  - refine (bool_decide_unpack _ _). vm_compute. exact I.
  - refine (proj1 (bool_decide_eq_false _) _). vm_compute. reflexivity.
Qed.

(* ===================================================================== *)
(** * C2: the balance check of the two creation routes *)
(* ===================================================================== *)

(** [POST /models] refuses an expense that exceeds the amount of the saldo
    and writes neither the saldo nor a transaction. *)
Lemma createWithPrediction_rejects_overdraft RegExp_i castObjectId b l st s sd c cats :
  castObjectId (pb_saldo b) = Some s →
  saldos st !! s = Some sd →
  resolveCategory RegExp_i l (pb_type b) (categories st) = Some (c, cats) →
  pb_type b = expense →
  saldo_amount sd < pb_amount b →
  createWithPrediction RegExp_i castObjectId b l st
  = (InsufficientBalance, mkStore (saldos st) (transactions st) cats).
Proof.
  intros Hs Hsd Hres Hty Hlt. unfold createWithPrediction.
  rewrite Hs, Hsd, Hres, Hty. cbn.
  destruct (Z.ltb_spec (saldo_amount sd - pb_amount b) 0); [done | lia].
Qed.

(** [POST ""] has no such check and commits every request whose saldo
    exists and whose [user] and [category] are ids. *)
Lemma createTransaction_commits castObjectId b st s sd u c :
  castObjectId (cb_saldo b) = Some s →
  saldos st !! s = Some sd →
  castObjectId (cb_user b) = Some u →
  castObjectId (cb_category b) = Some c →
  (createTransaction castObjectId b st).1 = Ok200
  ∧ amount_of s (createTransaction castObjectId b st).2
    = Some (saldo_amount sd + effect (mkTransaction u c s (cb_amount b)
                                         (cb_description b) (cb_type b))).
Proof.
  intros Hs Hsd Hu Hc. unfold createTransaction, amount_of.
  rewrite Hs, Hsd, Hu, Hc. cbn.
  rewrite lookup_insert_eq. cbn. split; [done|].
  unfold effect. cbn. destruct (cb_type b); f_equal; lia.
Qed.

(** C2: scenario 1, an expense of 150 on the wallet of 100.  [POST /models]
    answers [InsufficientBalance] and keeps saldo and transactions;
    [POST ""] answers 200, stores the transaction and leaves the wallet
    at -50. *)
Theorem plain_create_commits_overdraft :
  (Demo.createWithPrediction Demo.overdraft_models "sewa" Demo.wallet).1
    = InsufficientBalance
  ∧ saldos (Demo.createWithPrediction Demo.overdraft_models "sewa" Demo.wallet).2
    = saldos Demo.wallet
  ∧ transactions (Demo.createWithPrediction Demo.overdraft_models "sewa" Demo.wallet).2
    = transactions Demo.wallet
  ∧ Demo.createTransaction Demo.overdraft_plain Demo.wallet
    = (Ok200,
       mkStore {[ 1%nat := mkSaldo "Wallet" (-50) "cash" ]}
               {[ 0%nat := mkTransaction 7 3 1 150 "sewa kos" expense ]} []).
Proof. vm_compute. done. Qed.

(* ===================================================================== *)
(** * C3, C4, C5: the update route *)
(* ===================================================================== *)

(** An update that moves the transaction to another saldo and commits
    leaves the stored amount of the original saldo as it was before the
    request. *)
Lemma update_saldo_change_keeps_original castObjectId ObjectId_toString id p st t str s' st' :
  transactions st !! id = Some t →
  saldo_changed ObjectId_toString p t = Some str →
  castObjectId str = Some s' →
  s' ≠ tx_saldo t →
  updateTransaction castObjectId ObjectId_toString id p st = (Ok200, st') →
  amount_of (tx_saldo t) st' = amount_of (tx_saldo t) st.
Proof.
  intros Ht Hch Hs' Hne. unfold updateTransaction. rewrite Ht, Hch, Hs'.
  destruct (saldos st !! tx_saldo t) as [sd|]; [|discriminate].
  destruct (saldos st !! s') as [sd'|]; [|discriminate].
  destruct (reapply p _); [|discriminate].
  unfold save_then_update, Transaction_findByIdAndUpdate.
  cbn [transactions save_saldo]. rewrite Ht.
  destruct (apply_patch castObjectId t p); [|discriminate].
  intros [= <-]. unfold amount_of. cbn.
  by rewrite lookup_insert_ne.
Qed.

(** An update without [type] that keeps the saldo and is accepted stores
    the reverted amount: the old effect is taken back and none is
    applied. *)
Lemma update_without_type_stores_reversal castObjectId ObjectId_toString id p st t sd :
  transactions st !! id = Some t →
  saldos st !! tx_saldo t = Some sd →
  saldo_changed ObjectId_toString p t = None →
  p_type p = None →
  is_Some (apply_patch castObjectId t p) →
  (updateTransaction castObjectId ObjectId_toString id p st).1 = Ok200
  ∧ amount_of (tx_saldo t) (updateTransaction castObjectId ObjectId_toString id p st).2
    = Some (saldo_amount sd - effect t).
Proof.
  intros Ht Hsd Hch Hty [t' Ht']. unfold updateTransaction, reapply, amount_of.
  rewrite Ht, Hsd, Hch, Hty.
  unfold save_then_update, Transaction_findByIdAndUpdate.
  cbn [transactions save_saldo]. rewrite Ht, Ht'. cbn.
  rewrite lookup_insert_eq. cbn.
  split; [done|]. f_equal. unfold revert, effect. destruct (tx_type t); lia.
Qed.

(** C3: the income of 50 is moved from wallet A (50) to wallet B (0).  The
    request commits, B holds the new effect, and the stored amount of A is
    still 50, not the reversal [revert t 50 = 0]: the reverted document of
    A is never saved. *)
Theorem update_saldo_change_drops_reversal :
  (Demo.updateTransaction 0 Demo.move_to_B Demo.two_wallets).1 = Ok200
  ∧ amount_of 1 (Demo.updateTransaction 0 Demo.move_to_B Demo.two_wallets).2 = Some 50
  ∧ amount_of 2 (Demo.updateTransaction 0 Demo.move_to_B Demo.two_wallets).2 = Some 50
  ∧ tx_saldo <$> transactions (Demo.updateTransaction 0 Demo.move_to_B Demo.two_wallets).2
                 !! 0%nat
    = Some 2%nat
  ∧ revert (mkTransaction 7 3 1 50 "gaji" income) 50 = 0.
Proof. vm_compute. done. Qed.

(** C4: scenario 3 with a patch that names the amount only.  The stored
    transaction keeps its type and takes the amount 80, the old effect is
    reverted with the original type, and nothing is applied again: the
    wallet of 150 ends at 100, not at 150 - 50 + 80 = 180. *)
Theorem update_without_type_skips_reapplication :
  (Demo.updateTransaction 0 Demo.amount_only Demo.wallet_150).1 = Ok200
  ∧ transactions (Demo.updateTransaction 0 Demo.amount_only Demo.wallet_150).2 !! 0%nat
    = Some (mkTransaction 7 3 1 80 "gaji" income)
  ∧ amount_of 1 (Demo.updateTransaction 0 Demo.amount_only Demo.wallet_150).2 = Some 100.
Proof. vm_compute. done. Qed.

(** A committed update stores the transaction with the fields of the patch
    set and every other field kept. *)
Lemma update_stores_patched_transaction castObjectId ObjectId_toString id p st t st' :
  transactions st !! id = Some t →
  updateTransaction castObjectId ObjectId_toString id p st = (Ok200, st') →
  transactions st' !! id = apply_patch castObjectId t p.
Proof.
  intros Ht. unfold updateTransaction. rewrite Ht.
  destruct (saldos st !! tx_saldo t) as [sd|]; [|discriminate].
  assert (∀ s sd a, save_then_update castObjectId id p s sd a st = (Ok200, st') →
                    transactions st' !! id = apply_patch castObjectId t p)
    as Htail.
  { intros s sd0 a. unfold save_then_update, Transaction_findByIdAndUpdate.
    cbn [transactions save_saldo]. rewrite Ht.
    destruct (apply_patch castObjectId t p) as [t'|]; [|discriminate].
    intros [= <-]. cbn. by rewrite lookup_insert_eq. }
  destruct (saldo_changed ObjectId_toString p t) as [str|].
  - destruct (castObjectId str) as [s'|]; [|discriminate].
    destruct (saldos st !! s') as [sd'|]; [|discriminate].
    destruct (reapply p _); [|discriminate]. apply Htail.
  - destruct (reapply p _); [|discriminate]. apply Htail.
Qed.

(** A patch that names the type only makes the new amount [NaN]; the save
    is refused and nothing is written. *)
Example update_without_amount_is_refused :
  Demo.updateTransaction 0 Demo.type_only Demo.wallet_150 = (SaveRejected, Demo.wallet_150).
Proof. vm_compute. done. Qed.

(** C5 (as stated) fails: the expense of 30 on the wallet of 70 is raised to
    500.  The reapplied effect drives the wallet to -400, and the update
    neither aborts nor leaves the store as it was. *)
Lemma update_overdraft_counterexample :
  (Demo.updateTransaction 0 Demo.raise_to_500 Demo.wallet_70).1 = Ok200
  ∧ amount_of 1 (Demo.updateTransaction 0 Demo.raise_to_500 Demo.wallet_70).2 = Some (-400)
  ∧ ¬ ((Demo.updateTransaction 0 Demo.raise_to_500 Demo.wallet_70).1 ≠ Ok200
       ∧ (Demo.updateTransaction 0 Demo.raise_to_500 Demo.wallet_70).2 = Demo.wallet_70).
Proof.
  split; [|split]; [vm_compute; done .. |].
  intros [Hne _]. apply Hne. vm_compute. done.
Qed.

(** C5 (as amended): an update whose patch carries the type expense and an
    amount [x], and whose body the update of the transaction accepts (its
    id strings cast), is never checked against the balance.  It commits;
    the saldo the handler saves (the one the body names when that string
    is not the string of the stored id, else the saldo of the transaction
    after the reversal) is stored with its base amount minus [x], negative
    or not; and the transaction is stored with the patch applied. *)
Theorem update_expense_commits_unchecked castObjectId ObjectId_toString
    id p st t sd x s' sda t' :
  transactions st !! id = Some t →
  saldos st !! tx_saldo t = Some sd →
  p_type p = Some expense →
  p_amount p = Some x →
  affected_saldo castObjectId ObjectId_toString p t = Some s' →
  saldos st !! s' = Some sda →
  apply_patch castObjectId t p = Some t' →
  (updateTransaction castObjectId ObjectId_toString id p st).1 = Ok200
  ∧ amount_of s' (updateTransaction castObjectId ObjectId_toString id p st).2
    = Some (match saldo_changed ObjectId_toString p t with
            | Some _ => saldo_amount sda
            | None => revert t (saldo_amount sda)
            end - x)
  ∧ transactions (updateTransaction castObjectId ObjectId_toString id p st).2 !! id
    = Some t'.
Proof.
  intros Ht Hsd Hty Hx Hs' Hsda Ht'. unfold updateTransaction, amount_of.
  rewrite Ht, Hsd. unfold reapply. rewrite Hty, Hx.
  unfold affected_saldo in Hs'.
  destruct (saldo_changed ObjectId_toString p t) as [str|] eqn:Hch; cbn in Hs' |- *.
  - rewrite Hs', Hsda. cbn. unfold save_then_update, Transaction_findByIdAndUpdate.
    cbn [transactions save_saldo]. rewrite Ht, Ht'. cbn.
    by rewrite !lookup_insert_eq.
  - injection Hs' as <-. assert (sda = sd) as -> by congruence.
    unfold save_then_update, Transaction_findByIdAndUpdate.
    cbn [transactions save_saldo]. rewrite Ht, Ht'. cbn.
    by rewrite !lookup_insert_eq.
Qed.

Lemma update_expense_commits_unchecked_witness :
  (Demo.updateTransaction 0 Demo.raise_to_500 Demo.wallet_70).1 = Ok200
  ∧ amount_of 1 (Demo.updateTransaction 0 Demo.raise_to_500 Demo.wallet_70).2
    = Some (revert (mkTransaction 7 3 1 30 "pulsa" expense) 70 - 500)
  ∧ transactions (Demo.updateTransaction 0 Demo.raise_to_500 Demo.wallet_70).2 !! 0%nat
    = Some (mkTransaction 7 3 1 500 "pulsa" expense).
Proof.
  apply (update_expense_commits_unchecked hex_castObjectId hex_toString
           0 Demo.raise_to_500 Demo.wallet_70
           (mkTransaction 7 3 1 30 "pulsa" expense) (mkSaldo "Wallet" 70 "cash") 500
           1%nat (mkSaldo "Wallet" 70 "cash")
           (mkTransaction 7 3 1 500 "pulsa" expense)); reflexivity.
Defined.

(* ===================================================================== *)
(** * C10: the delete route *)
(* ===================================================================== *)

(** C10: when the transaction and its saldo exist, the delete request
    commits.  It answers 200, never [InsufficientBalance]; the saldo is
    stored with the effect of the transaction reverted, whatever the sign
    of the result; the transaction is gone.  Deleting an income larger than
    the current amount leaves a negative amount. *)
Theorem delete_always_commits id st t sd :
  transactions st !! id = Some t →
  saldos st !! tx_saldo t = Some sd →
  deleteTransaction id st
  = (Ok200, Transaction_deleteOne id
              (save_saldo (tx_saldo t) sd (revert t (saldo_amount sd)) st))
  ∧ (deleteTransaction id st).1 ≠ InsufficientBalance
  ∧ amount_of (tx_saldo t) (deleteTransaction id st).2 = Some (saldo_amount sd - effect t)
  ∧ transactions (deleteTransaction id st).2 !! id = None
  ∧ (tx_type t = income → saldo_amount sd < tx_amount t →
     ∃ a, amount_of (tx_saldo t) (deleteTransaction id st).2 = Some a ∧ a < 0).
Proof.
  intros Ht Hsd. unfold deleteTransaction, amount_of. rewrite Ht, Hsd. cbn.
  rewrite lookup_insert_eq, lookup_delete_eq. cbn.
  assert (revert t (saldo_amount sd) = saldo_amount sd - effect t) as ->.
  { unfold revert, effect. destruct (tx_type t); lia. }
  repeat split; [done|].
  intros Hty Hlt. eexists. split; [done|].
  unfold effect. rewrite Hty. lia.
Qed.

Lemma delete_always_commits_witness :
  (deleteTransaction 0 Demo.wallet_20).1 = Ok200
  ∧ amount_of 1 (deleteTransaction 0 Demo.wallet_20).2 = Some (-30)
  ∧ transactions (deleteTransaction 0 Demo.wallet_20).2 !! 0%nat = None.
Proof.
  destruct (delete_always_commits 0 Demo.wallet_20
              (mkTransaction 7 3 1 50 "gaji" income) (mkSaldo "Wallet" 20 "cash")
              eq_refl eq_refl) as (Heq & _ & Ham & Hgone & _).
  split; [by rewrite Heq|]. split; [exact Ham | exact Hgone].
Defined.

(* ===================================================================== *)
(** * C6: the category resolver *)
(* ===================================================================== *)

Section ResolverFacts.

Lemma compile_body_ordinary label :
  ordinary label = true →
  compile_body (label +:+ "$") = Some (literal_atoms label).
Proof.
  induction label as [|c r IH]; [done|].
  intros [Hc Hr]%andb_prop. apply negb_true_iff in Hc.
  change (String c r +:+ "$") with (String c (r +:+ "$")).
  cbn [compile_body literal_atoms]. rewrite (IH Hr).
  destruct (bool_decide (c = "$"%char)) eqn:E1.
  { apply bool_decide_eq_true in E1. subst c. discriminate Hc. }
  destruct (bool_decide (c = "."%char)) eqn:E2.
  { apply bool_decide_eq_true in E2. subst c. discriminate Hc. }
  by rewrite Hc.
Qed.

Lemma match_literal_atoms label s :
  match_atoms (literal_atoms label) s
  = bool_decide (toLowerCase s = toLowerCase label).
Proof.
  revert s. induction label as [|c r IH]; intros [|d s]; cbn; try done.
  rewrite IH. apply eq_true_iff_eq.
  rewrite andb_true_iff, !bool_decide_eq_true.
  split; [intros [-> ->]; done | intros [= -> ->]; done].
Qed.

(** On a label without syntax characters the lookup of the resolver is
    the lookup of the specification: equality of the names up to case,
    equality of the types. *)
Lemma resolver_lookup_ordinary label ty cats :
  ordinary label = true →
  ∃ re, fragment_RegExp_i ("^" +:+ label +:+ "$") = Some re
        ∧ Category_findOne re ty cats = findByNameTypeCI label ty cats.
Proof.
  intros Hord. exists (match_atoms (literal_atoms label)). split.
  - change ("^" +:+ label +:+ "$") with (String "^" (label +:+ "$")).
    unfold fragment_RegExp_i. rewrite bool_decide_eq_true_2 by done.
    by rewrite compile_body_ordinary.
  - unfold Category_findOne, findByNameTypeCI.
    induction cats as [|c cats IH]; cbn; [done|].
    by rewrite match_literal_atoms, IH.
Qed.

End ResolverFacts.

(** C6: the label [e.money] with the categories [e-money] and [e.money]
    stored in this order.  The lookup by name up to case finds [e.money];
    the resolver reads the dot of the label as "any character" and answers
    with [e-money], the first category the expression matches. *)
Theorem resolver_reads_label_as_pattern :
  findByNameTypeCI "e.money" expense Demo.two_categories = Some Demo.e_money_dot
  ∧ resolveCategory fragment_RegExp_i "e.money" expense Demo.two_categories
    = Some (Demo.e_money_dash, Demo.two_categories).
Proof. vm_compute. done. Qed.

(** On a miss the resolver stores a category named by the label in lower
    case, with the type asked for and a generated description. *)
Example resolver_creates_on_miss :
  resolveCategory fragment_RegExp_i "Pulsa" expense Demo.two_categories
  = Some (mkCategory 2 "pulsa" expense "Auto-generated category for Pulsa",
          Demo.two_categories
          ++ [mkCategory 2 "pulsa" expense "Auto-generated category for Pulsa"]).
Proof. vm_compute. done. Qed.

(* ===================================================================== *)
(** * C7, C8: training and loading the classifier *)
(* ===================================================================== *)

Section LiveObject.

Variable Classifier : Type.
Variable bayes : Classifier.

Local Abbreviation live_ := (live Classifier bayes).

Lemma live_mutate_live f sv :
  wf_service sv →
  live_ (mutate_live Classifier bayes f sv) = f (live_ sv).
Proof.
  intros Hwf. unfold live at 1. cbn.
  by rewrite list_lookup_insert_eq.
Qed.

Lemma live_assign_new c sv :
  live_ (assign_new Classifier c sv) = c.
Proof.
  unfold live. cbn.
  rewrite lookup_app_r by lia. by rewrite Nat.sub_diag.
Qed.

End LiveObject.

Section Training.

Variable Classifier : Type.
Variable bayes : Classifier.
Variable learn : Classifier → string → string → Classifier.
Variable toJson : Classifier → string.

Local Abbreviation live_ := (live Classifier bayes).
Local Abbreviation learn_tx_ := (learn_tx Classifier learn).
Local Abbreviation train_pages_ := (train_pages Classifier learn).

(** The paging loop ends and has then learned every transaction from
    [skip] on, in stored order. *)
Lemma train_pages_all fuel txs skip c n :
  (length (drop skip txs) < fuel)%nat →
  train_pages_ fuel txs skip c n
  = (fold_left learn_tx_ (drop skip txs) c, (n + length (drop skip txs))%nat).
Proof.
  revert skip c n. induction fuel as [|fuel IH]; intros skip c n Hlt; [lia|].
  cbn [train_pages].
  assert (drop (skip + batchSize) txs = drop batchSize (drop skip txs)) as Hnext
    by (by rewrite drop_drop).
  pose proof (take_drop batchSize (drop skip txs)) as Hsplit.
  pose proof (f_equal length Hsplit) as Hlen. rewrite length_app in Hlen.
  destruct (drop skip txs) as [|x r] eqn:Hr.
  { cbn. by rewrite Nat.add_0_r. }
  destruct (take batchSize (x :: r)) as [|p page] eqn:Hpage; [discriminate|].
  rewrite IH, Hnext.
  - rewrite <- fold_left_app, Hsplit. f_equal. lia.
  - rewrite Hnext. cbn [length] in *. lia.
Qed.

Lemma train_pages_from_start txs c :
  train_pages_ (S (length txs)) txs 0 c 0 = (fold_left learn_tx_ txs c, length txs).
Proof. rewrite train_pages_all; rewrite drop_0; [done | lia]. Qed.

(** C7 (as amended): a run of [trainClassifier] feeds the training
    examples to the live classifier object itself.  The variable
    [classifier] refers to the same object before and after, no object is
    created, every other object is left as it was, and the state of the
    live object after the run is its state before the run with every
    stored transaction learned on top, in stored order. *)
Theorem trainClassifier_learns_in_place now txs sv :
  wf_service sv →
  classifier (trainClassifier Classifier bayes learn toJson now txs sv).2 = classifier sv
  ∧ length (objects (trainClassifier Classifier bayes learn toJson now txs sv).2)
    = length (objects sv)
  ∧ (∀ r, r ≠ classifier sv →
       objects (trainClassifier Classifier bayes learn toJson now txs sv).2 !! r
       = objects sv !! r)
  ∧ live_ (trainClassifier Classifier bayes learn toJson now txs sv).2
    = fold_left learn_tx_ txs (live_ sv).
Proof.
  intros Hwf. unfold trainClassifier. rewrite train_pages_from_start.
  set (sv1 := mutate_live Classifier bayes (λ _, fold_left learn_tx_ txs (live_ sv)) sv).
  assert (live_ sv1 = fold_left learn_tx_ txs (live_ sv)) as Hlive
    by exact (live_mutate_live Classifier bayes (λ _, fold_left learn_tx_ txs (live_ sv)) sv Hwf).
  assert (∀ sv', objects sv' = objects sv1 → classifier sv' = classifier sv1 →
            classifier sv' = classifier sv
            ∧ length (objects sv') = length (objects sv)
            ∧ (∀ r, r ≠ classifier sv → objects sv' !! r = objects sv !! r)
            ∧ live_ sv' = fold_left learn_tx_ txs (live_ sv)) as Hframe.
  { intros sv' Hobj Hcl.
    split; [by rewrite Hcl|].
    split; [rewrite Hobj; cbn; apply length_insert|]. split.
    - intros r Hr. rewrite Hobj. cbn. by rewrite list_lookup_insert_ne.
    - rewrite <- Hlive. unfold live. by rewrite Hobj, Hcl. }
  case_bool_decide.
  - unfold saveModel. cbn [fst snd].
    apply Hframe; subst sv1; cbn; destruct (model_file sv); done.
  - by apply Hframe.
Qed.

End Training.

Section Loading.

Variable Classifier : Type.
Variable bayes : Classifier.
Variable fromJson : string → option Classifier.
Variable JSON_parse : string → bool.

Local Abbreviation live_ := (live Classifier bayes).
Local Abbreviation parse_primary_ := (parse_primary Classifier fromJson JSON_parse).

Lemma parse_primary_None d :
  parse_primary_ d = None ↔ is_blank d = true ∨ JSON_parse d = false ∨ fromJson d = None.
Proof.
  unfold parse_primary.
  destruct (is_blank d), (JSON_parse d), (fromJson d); cbn; intuition congruence.
Qed.

Lemma backup_reads_app ops ops' :
  backup_reads (ops ++ ops') = (backup_reads ops + backup_reads ops')%nat.
Proof. unfold backup_reads. by rewrite filter_app, length_app. Qed.

(** C8 (as amended): [loadModel] with a primary file that is empty or
    malformed reads the backup at most once.  When the backup parses, the
    service is ready with the model of the backup and the backup is copied
    over the primary file; when there is no backup or it does not parse,
    the primary file is removed and the service is not ready, with an
    empty model.  With no primary file at all the backup is not looked
    at: the service is not ready, with an empty model, and no file is
    read or changed.  In each case [loadModel] returns, [true] in the
    first and [false] in the others. *)
Theorem loadModel_fallback sv :
  (∀ d, model_file sv = Some d →
        is_blank d = true ∨ JSON_parse d = false ∨ fromJson d = None →
     (∀ b c, backup_file sv = Some b → fromJson b = Some c →
        loadModel Classifier bayes fromJson JSON_parse sv
        = (true, file_op Classifier CopyBackupToPrimary (Some b) (Some b)
                   (set_ready Classifier true
                      (assign_new Classifier c
                         (readFile Classifier ReadBackup
                            (readFile Classifier ReadPrimary sv)))))
        ∧ live_ (loadModel Classifier bayes fromJson JSON_parse sv).2 = c
        ∧ isModelReady (loadModel Classifier bayes fromJson JSON_parse sv).2 = true
        ∧ model_file (loadModel Classifier bayes fromJson JSON_parse sv).2 = Some b
        ∧ backup_file (loadModel Classifier bayes fromJson JSON_parse sv).2 = Some b)
     ∧ (backup_file sv = None ∨ (∃ b, backup_file sv = Some b ∧ fromJson b = None) →
        (loadModel Classifier bayes fromJson JSON_parse sv).1 = false
        ∧ live_ (loadModel Classifier bayes fromJson JSON_parse sv).2 = bayes
        ∧ isModelReady (loadModel Classifier bayes fromJson JSON_parse sv).2 = false
        ∧ model_file (loadModel Classifier bayes fromJson JSON_parse sv).2 = None
        ∧ backup_file (loadModel Classifier bayes fromJson JSON_parse sv).2 = backup_file sv)
     ∧ (backup_reads (file_ops (loadModel Classifier bayes fromJson JSON_parse sv).2)
        ≤ backup_reads (file_ops sv) + 1)%nat)
  ∧ (model_file sv = None →
       loadModel Classifier bayes fromJson JSON_parse sv
       = (false, set_ready Classifier false (assign_new Classifier bayes sv))
       ∧ live_ (loadModel Classifier bayes fromJson JSON_parse sv).2 = bayes
       ∧ isModelReady (loadModel Classifier bayes fromJson JSON_parse sv).2 = false
       ∧ model_file (loadModel Classifier bayes fromJson JSON_parse sv).2 = None
       ∧ backup_file (loadModel Classifier bayes fromJson JSON_parse sv).2 = backup_file sv
       ∧ file_ops (loadModel Classifier bayes fromJson JSON_parse sv).2 = file_ops sv).
Proof.
  split.
  - intros d Hd Hbad%parse_primary_None. unfold loadModel. rewrite Hd, Hbad.
    cbn [backup_file readFile file_op]. split; [|split].
    + intros b c Hb Hc. rewrite Hb, Hc. cbn [fst snd].
      split; [done|]. split; [|done].
      apply live_assign_new.
    + assert (∀ sv0, model_file sv0 = Some d → backup_file sv0 = backup_file sv →
                (start_afresh Classifier bayes sv0).1 = false
                ∧ live_ (start_afresh Classifier bayes sv0).2 = bayes
                ∧ isModelReady (start_afresh Classifier bayes sv0).2 = false
                ∧ model_file (start_afresh Classifier bayes sv0).2 = None
                ∧ backup_file (start_afresh Classifier bayes sv0).2 = backup_file sv)
        as Hfresh.
      { intros sv0 Hm Hbk. unfold start_afresh. cbn. rewrite Hm. cbn.
        repeat split; [|done].
        apply live_assign_new. }
      intros Hbackup.
      destruct (backup_file sv) as [b|] eqn:Hb.
      * destruct Hbackup as [? | (b' & [= <-] & Hfail)]; [done|].
        rewrite Hfail. by apply Hfresh.
      * by apply Hfresh.
    + destruct (backup_file sv) as [b|]; [destruct (fromJson b)|];
        unfold start_afresh; cbn [fst snd assign_new set_ready model_file readFile file_op];
        rewrite ?Hd; cbn [file_ops file_op assign_new set_ready readFile];
        rewrite !backup_reads_app;
        change (backup_reads [ReadPrimary]) with 0%nat;
        change (backup_reads [ReadBackup]) with 1%nat;
        change (backup_reads [CopyBackupToPrimary]) with 0%nat;
        change (backup_reads [UnlinkPrimary]) with 0%nat; lia.
  - intros Hnone. unfold loadModel. rewrite Hnone. cbn.
    repeat split; [|done].
    apply live_assign_new.
Qed.

End Loading.

(** C7 (as stated) fails: a ready service whose live classifier has learned
    one salary is trained on a collection holding one phone top-up.  No new
    instance is made; the object that was live is changed, and it now holds
    the salary and the top-up, not the top-up alone. *)
Lemma train_aside_counterexample :
  classifier (Toy.trainClassifier 5 Toy.one_topup Toy.ready_service).2
    = classifier Toy.ready_service
  ∧ Toy.live (Toy.trainClassifier 5 Toy.one_topup Toy.ready_service).2
    = [("gaji bulanan income", "gaji"); ("pulsa expense", "pulsa")]
  ∧ ¬ trains_aside Toy.Classifier Toy.bayes Toy.learn Toy.one_topup Toy.ready_service
        (Toy.trainClassifier 5 Toy.one_topup Toy.ready_service).2.
Proof.
  split; [|split]; [vm_compute; done ..|].
  intros [Hswap _]. apply Hswap. vm_compute. done.
Qed.

Lemma trainClassifier_learns_in_place_witness :
  classifier (Toy.trainClassifier 5 Toy.one_topup Toy.ready_service).2 = 0%nat
  ∧ length (objects (Toy.trainClassifier 5 Toy.one_topup Toy.ready_service).2) = 1%nat
  ∧ Toy.live (Toy.trainClassifier 5 Toy.one_topup Toy.ready_service).2
    = Toy.learn Toy.salary_model "pulsa expense" "pulsa".
Proof.
  destruct (trainClassifier_learns_in_place Toy.Classifier Toy.bayes Toy.learn Toy.toJson
              5%nat Toy.one_topup Toy.ready_service) as (Hsame & Hlen & _ & Hlive).
  - unfold wf_service. cbn. lia.
  - split; [exact Hsame|]. split; [exact Hlen | exact Hlive].
Defined.

(** C8 (as stated) fails when the primary file is missing: with a backup
    that parses, the service is not ready, its model is empty, the backup
    has not been read and no primary file has been restored. *)
Lemma load_missing_primary_counterexample :
  Toy.fromJson (Toy.toJson Toy.salary_model) = Some Toy.salary_model
  ∧ model_file Toy.only_backup = None
  ∧ backup_file Toy.only_backup = Some (Toy.toJson Toy.salary_model)
  ∧ (Toy.loadModel Toy.only_backup).1 = false
  ∧ isModelReady (Toy.loadModel Toy.only_backup).2 = false
  ∧ Toy.live (Toy.loadModel Toy.only_backup).2 = Toy.bayes
  ∧ model_file (Toy.loadModel Toy.only_backup).2 = None
  ∧ file_ops (Toy.loadModel Toy.only_backup).2 = []
  ∧ ¬ recovers_from_backup Toy.Classifier Toy.bayes Toy.fromJson Toy.JSON_parse
        Toy.only_backup (Toy.loadModel Toy.only_backup).2.
Proof.
  repeat (split; [vm_compute; done|]).
  intros Hrec.
  destruct (Hrec (Toy.toJson Toy.salary_model) Toy.salary_model I eq_refl eq_refl)
    as [Hready _].
  vm_compute in Hready. discriminate Hready.
Qed.

Lemma loadModel_fallback_witness :
  (* a primary file cut short, a backup that parses *)
  (Toy.loadModel Toy.corrupt_primary).1 = true
  ∧ Toy.live (Toy.loadModel Toy.corrupt_primary).2 = Toy.salary_model
  ∧ isModelReady (Toy.loadModel Toy.corrupt_primary).2 = true
  ∧ model_file (Toy.loadModel Toy.corrupt_primary).2 = Some (Toy.toJson Toy.salary_model)
  (* an empty primary file, a backup cut short *)
  ∧ (Toy.loadModel Toy.both_corrupt).1 = false
  ∧ Toy.live (Toy.loadModel Toy.both_corrupt).2 = Toy.bayes
  ∧ isModelReady (Toy.loadModel Toy.both_corrupt).2 = false
  ∧ model_file (Toy.loadModel Toy.both_corrupt).2 = None
  (* no primary file *)
  ∧ isModelReady (Toy.loadModel Toy.only_backup).2 = false
  ∧ file_ops (Toy.loadModel Toy.only_backup).2 = [].
Proof.
  destruct (loadModel_fallback Toy.Classifier Toy.bayes Toy.fromJson Toy.JSON_parse
              Toy.corrupt_primary) as [Hcorrupt _].
  destruct (Hcorrupt "bayes:gaji bul" eq_refl) as (Hgood & _ & _).
  { right; right. vm_compute. reflexivity. }
  destruct (Hgood (Toy.toJson Toy.salary_model) Toy.salary_model eq_refl)
    as (Heq & Hlive & Hready & Hprimary & _).
  { vm_compute. reflexivity. }
  destruct (loadModel_fallback Toy.Classifier Toy.bayes Toy.fromJson Toy.JSON_parse
              Toy.both_corrupt) as [Hboth _].
  destruct (Hboth "  " eq_refl) as (_ & Hbad & _).
  { left. vm_compute. reflexivity. }
  destruct Hbad as (Hres & Hlive' & Hready' & Hprimary' & _).
  { right. exists "bayes:gaji bul". split; vm_compute; reflexivity. }
  destruct (loadModel_fallback Toy.Classifier Toy.bayes Toy.fromJson Toy.JSON_parse
              Toy.only_backup) as [_ Hmissing].
  destruct (Hmissing eq_refl) as (_ & _ & Hready'' & _ & _ & Hops).
  split; [unfold Toy.loadModel; by rewrite Heq|].
  repeat (split; [assumption|]). assumption.
Defined.


(* ===================================================================== *)
(** * C9: the folds of the cross validation *)
(* ===================================================================== *)

Section Folds.

Implicit Types (txs : list PopulatedTx) (k fs i : nat).

Lemma testData_block txs fs i :
  testData txs fs i = take fs (drop (i * fs) txs).
Proof. unfold testData, slice. f_equal. lia. Qed.

Lemma trainingData_rest txs fs i :
  trainingData txs fs i = take (i * fs) txs ++ drop ((i + 1) * fs) txs.
Proof. unfold trainingData, slice, slice_from. by rewrite drop_0, Nat.sub_0_r. Qed.

(** The test data of the first [k] folds, one after the other, are the
    first [k * fs] transactions. *)
Lemma concat_testData txs fs k :
  concat (testData txs fs <$> seq 0 k) = take (k * fs) txs.
Proof.
  induction k as [|k IH]; [done|].
  rewrite seq_S, fmap_app, concat_app, IH.
  change (concat (testData txs fs <$> [(0 + k)%nat])) with (testData txs fs k ++ []).
  rewrite app_nil_r, testData_block, take_take_drop. f_equal. lia.
Qed.

Lemma length_testData txs fs k i :
  (i < k)%nat → (k * fs ≤ length txs)%nat → length (testData txs fs i) = fs.
Proof.
  intros Hi Hk. rewrite testData_block, length_take_le; [done|].
  rewrite length_drop. nia.
Qed.

(** A fold cuts the transactions in three: what is before its test data,
    its test data, what is after. *)
Lemma fold_split txs fs i :
  take (i * fs) txs ++ testData txs fs i ++ drop ((i + 1) * fs) txs = txs.
Proof.
  rewrite testData_block, app_assoc, take_take_drop.
  replace ((i + 1) * fs)%nat with (i * fs + fs)%nat by lia.
  apply take_drop.
Qed.

Lemma effective_k_pos body_k : (0 < effective_k body_k)%nat.
Proof. destruct body_k as [[|n]|]; cbn; lia. Qed.

End Folds.

Section CrossValidationFacts.

Variable Classifier : Type.
Variable bayes : Classifier.
Variable learn : Classifier → string → string → Classifier.
Variable categorize : Classifier → string → option string.
Variable round4 : Q → Q.

Local Abbreviation crossValidate_ :=
  (crossValidate Classifier bayes learn categorize round4).
Local Abbreviation run_fold_ := (run_fold Classifier bayes learn categorize round4).

(** C9 (as amended): with fewer than [2k] fetched transactions the
    request fails for lack of data.  Otherwise there are [k] folds of
    [n / k] transactions each; the test data of fold [i] is the [i]-th
    block of that size in stored order, its training data is every other
    fetched transaction, and its accuracy is the share of the test data
    that a classifier trained on the training data labels as stored.
    The test data of the [k] folds, one after the other, are the first
    [k * (n / k)] transactions: the last [n mod k] transactions are in
    the test data of no fold.  The answer holds the result of each fold
    and the mean of their accuracies. *)
Theorem crossValidate_contiguous_folds body_k all :
  let k := effective_k body_k in
  let txs := take 500 all in
  let fs := (length txs / k)%nat in
  ((length txs < 2 * k)%nat → crossValidate_ body_k all = CVInsufficientData k)
  ∧ ((2 * k ≤ length txs)%nat →
     ∃ folds,
       crossValidate_ body_k all
       = CVSuccess k (round4 (avgAccuracy folds)) folds (length txs)
       ∧ length folds = k
       ∧ (∀ i, (i < k)%nat →
            folds !! i
            = Some (mkFoldResult (i + 1)
                      (round4 (ratio (correct_count Classifier categorize
                                        (fold_left (learn_tx Classifier learn)
                                                   (trainingData txs fs i) bayes)
                                        (testData txs fs i))
                                     fs))
                      fs)
            ∧ length (testData txs fs i) = fs
            ∧ trainingData txs fs i = take (i * fs) txs ++ drop ((i + 1) * fs) txs
            ∧ take (i * fs) txs ++ testData txs fs i ++ drop ((i + 1) * fs) txs = txs)
       ∧ concat (testData txs fs <$> seq 0 k) ++ drop (k * fs) txs = txs
       ∧ length (drop (k * fs) txs) = (length txs mod k)%nat).
Proof.
  intros k txs fs. pose proof (effective_k_pos body_k) as Hk. fold k in Hk.
  unfold crossValidate. fold k txs fs. split.
  - intros Hlt. rewrite bool_decide_eq_true_2 by lia. done.
  - intros Hge. rewrite bool_decide_eq_false_2 by lia.
    assert (k * fs ≤ length txs)%nat as Hfit.
    { unfold fs. apply Nat.Div0.mul_div_le. }
    eexists. split; [reflexivity|]. split; [|split; [|split]].
    + by rewrite length_fmap, length_seq.
    + intros i Hi. rewrite list_lookup_fmap, lookup_seq_lt by done. cbn.
      rewrite (length_testData txs fs k i Hi Hfit).
      unfold run_fold. rewrite (length_testData txs fs k i Hi Hfit).
      split; [done|]. split; [done|].
      split; [apply trainingData_rest | apply fold_split].
    + rewrite concat_testData. apply take_drop.
    + rewrite length_drop. unfold fs.
      pose proof (Nat.div_mod_eq (length txs) k). lia.
Qed.

End CrossValidationFacts.

(** C9 (as stated) fails on five transactions and two folds: the request
    succeeds with folds of two transactions, and the fifth transaction is
    in the test data of neither. *)
Lemma folds_partition_counterexample :
  (∃ avg folds, Toy.crossValidate (Some 2%nat) Demo.five = CVSuccess 2 avg folds 5)
  ∧ mkPopulatedTx "sewa" expense (Some "kos") ∈ Demo.five
  ∧ (mkPopulatedTx "sewa" expense (Some "kos")
       ∉ concat (testData Demo.five (length Demo.five / 2) <$> seq 0 2))
  ∧ ¬ folds_partition 2 Demo.five.
Proof.
  split; [by eexists _, _|]. split; [|split].
  - refine (bool_decide_unpack _ _). vm_compute. exact I.
  - refine (proj1 (bool_decide_eq_false _) _). vm_compute. reflexivity.
  - unfold folds_partition.
    refine (proj1 (bool_decide_eq_false _) _). vm_compute. reflexivity.
Qed.

Lemma crossValidate_contiguous_folds_witness :
  Toy.crossValidate (Some 3%nat) Demo.five = CVInsufficientData 3
  ∧ (∃ folds,
       Toy.crossValidate (Some 2%nat) Demo.five
       = CVSuccess 2 (Toy.round4 (avgAccuracy folds)) folds 5
       ∧ fr_testSamples <$> folds = [2; 2]%nat
       ∧ concat (testData Demo.five 2 <$> seq 0 2) ++ drop 4 Demo.five = Demo.five).
Proof.
  split.
  - apply (crossValidate_contiguous_folds Toy.Classifier Toy.bayes Toy.learn Toy.categorize
             Toy.round4 (Some 3%nat) Demo.five). vm_compute. lia.
  - destruct (crossValidate_contiguous_folds Toy.Classifier Toy.bayes Toy.learn
                Toy.categorize Toy.round4 (Some 2%nat) Demo.five) as [_ Hok].
    destruct Hok as (folds & Heq & Hlen & Hfold & Hcat & _); [vm_compute; lia|].
    exists folds. split; [exact Heq|]. split; [|exact Hcat].
    destruct (Hfold 0%nat) as (H0 & _); [vm_compute; lia|].
    destruct (Hfold 1%nat) as (H1 & _); [vm_compute; lia|].
    destruct folds as [|f0 [|f1 [|f2 folds]]]; try discriminate Hlen.
    cbn in H0, H1. injection H0 as ->. injection H1 as ->. reflexivity.
Defined.

(* ===================================================================== *)
(** * Further properties of the transaction routes *)
(* ===================================================================== *)

Section LedgerBasics.

Variable RegExp_i : string → option (string → bool).

Lemma store_eta (st : Store) : mkStore (saldos st) (transactions st) (categories st) = st.
Proof. by destruct st. Qed.

Lemma saldo_eta (sd : Saldo) :
  mkSaldo (saldo_name sd) (saldo_amount sd) (saldo_description sd) = sd.
Proof. by destruct sd. Qed.

Lemma resolveCategory_extends l ty cats c cats' :
  resolveCategory RegExp_i l ty cats = Some (c, cats') →
  c ∈ cats' ∧ cat_type c = ty
  ∧ (cats' = cats ∨ (cats' = cats ++ [c] ∧ cat_id c = fresh (cat_id <$> cats))).
Proof.
  unfold resolveCategory. destruct (RegExp_i _) as [re|]; [|discriminate].
  destruct (Category_findOne re ty cats) as [c0|] eqn:Hfind.
  - intros [= <- <-]. apply find_some in Hfind as [Hin Hc].
    apply andb_prop in Hc as [_ Hty%bool_decide_eq_true].
    split; [by apply list_elem_of_In|]. split; [done | by left].
  - intros [= <- <-]. split; [set_solver|]. split; [done|]. right. done.
Qed.

End LedgerBasics.

Section LedgerRoutes.

Variable RegExp_i : string → option (string → bool).
Variable castObjectId : string → option nat.
Variable ObjectId_toString : nat → string.

Implicit Types (st : Store) (t : Transaction) (op : Op).

Local Abbreviation step_ := (step RegExp_i castObjectId ObjectId_toString).

Lemma failure_writes_nothing st r :
  r ≠ CreateRejected → r ≠ UpdateRejected → failure_writes st st r.
Proof.
  intros H1 H2. split; [done|]. split.
  - exists []. split; [by rewrite app_nil_r | cbn; lia].
  - split; [done|]. by intros [].
Qed.

Lemma save_then_update_failure id p s sd a st :
  saldos st !! s = Some sd →
  (save_then_update castObjectId id p s sd a st).1 ≠ Ok200 →
  failure_writes st (save_then_update castObjectId id p s sd a st).2
                 (save_then_update castObjectId id p s sd a st).1.
Proof.
  intros Hs. unfold save_then_update.
  destruct (Transaction_findByIdAndUpdate _ _ _ _); [done|]. intros _.
  cbn [fst snd save_saldo]. split; [done|]. split.
  - exists []. split; [by rewrite app_nil_r | cbn; lia].
  - split; [done|]. intros _. by exists s, sd, a.
Qed.

(** A request that is not answered with 200 writes no transaction and at
    most the one category the resolver of [POST /models] created.  It
    writes no saldo either when the request is refused before the save.
    When it is the creation or the update of the transaction that is
    refused, after the save, one saldo has been stored with a new amount
    and no transaction accounts for it. *)
Theorem failed_request_writes_no_transaction op st :
  (step RegExp_i castObjectId ObjectId_toString op st).1 ≠ Ok200 →
  failure_writes st (step RegExp_i castObjectId ObjectId_toString op st).2
                 (step RegExp_i castObjectId ObjectId_toString op st).1.
Proof.
  destruct op as [b l|b|id p|id]; cbn [step].
  - unfold createWithPrediction.
    destruct (castObjectId (pb_saldo b)) as [s|];
      [|intros _; by apply failure_writes_nothing].
    destruct (saldos st !! s) as [sd|] eqn:Hsd;
      [|intros _; by apply failure_writes_nothing].
    destruct (resolveCategory _ _ _ _) as [[c cats]|] eqn:Hres;
      [|intros _; by apply failure_writes_nothing].
    assert (∃ extra, cats = categories st ++ extra ∧ (length extra ≤ 1)%nat) as Hcats.
    { apply resolveCategory_extends in Hres as (_ & _ & [-> | [-> _]]).
      - exists []. split; [by rewrite app_nil_r | cbn; lia].
      - exists [c]. split; [done | cbn; lia]. }
    case_match.
    + intros _. cbn [fst snd]. split; [done|]. split; [done|].
      split; [done|]. by intros [].
    + destruct (castObjectId (pb_user b)); [done|]. intros _.
      cbn [fst snd save_saldo saldos transactions categories].
      split; [done|]. split; [done|]. split; [done|]. intros _. by eexists s, sd, _.
  - unfold createTransaction.
    destruct (castObjectId (cb_saldo b)) as [s|];
      [|intros _; by apply failure_writes_nothing].
    destruct (saldos st !! s) as [sd|] eqn:Hsd;
      [|intros _; by apply failure_writes_nothing].
    assert (failure_writes st (save_saldo s sd
              match cb_type b with
              | income => saldo_amount sd + cb_amount b
              | expense => saldo_amount sd - cb_amount b
              end st) CreateRejected) as Hlate.
    { split; [done|]. split.
      - exists []. split; [by rewrite app_nil_r | cbn; lia].
      - split; [done|]. intros _. by eexists s, sd, _. }
    destruct (castObjectId (cb_user b)), (castObjectId (cb_category b));
      first [done | intros _; exact Hlate].
  - unfold updateTransaction.
    destruct (transactions st !! id) as [t|];
      [|intros _; by apply failure_writes_nothing].
    destruct (saldos st !! tx_saldo t) as [sd|] eqn:Hsd;
      [|intros _; by apply failure_writes_nothing].
    destruct (saldo_changed ObjectId_toString p t) as [str|].
    + destruct (castObjectId str) as [s'|];
        [|intros _; by apply failure_writes_nothing].
      destruct (saldos st !! s') as [sd'|] eqn:Hsd';
        [|intros _; by apply failure_writes_nothing].
      destruct (reapply p _); [|intros _; by apply failure_writes_nothing].
      by apply save_then_update_failure.
    + destruct (reapply p _); [|intros _; by apply failure_writes_nothing].
      by apply save_then_update_failure.
  - unfold deleteTransaction.
    repeat case_match; try done; intros _; by apply failure_writes_nothing.
Qed.

Lemma save_saldo_keeps_document s sd a st k :
  saldos st !! s = Some sd →
  saldo_name <$> saldos (save_saldo s sd a st) !! k = saldo_name <$> saldos st !! k
  ∧ saldo_description <$> saldos (save_saldo s sd a st) !! k
    = saldo_description <$> saldos st !! k.
Proof.
  intros Hs. cbn. destruct (decide (s = k)) as [->|Hne].
  - by rewrite lookup_insert_eq, Hs.
  - by rewrite lookup_insert_ne.
Qed.

Lemma save_then_update_keeps_document id p s sd a st k :
  saldos st !! s = Some sd →
  saldo_name <$> saldos (save_then_update castObjectId id p s sd a st).2 !! k
  = saldo_name <$> saldos st !! k
  ∧ saldo_description <$> saldos (save_then_update castObjectId id p s sd a st).2 !! k
    = saldo_description <$> saldos st !! k.
Proof.
  intros Hs. unfold save_then_update, Transaction_findByIdAndUpdate.
  cbn [transactions save_saldo].
  assert (∀ st', saldos st' = <[s := mkSaldo (saldo_name sd) a (saldo_description sd)]>
                                (saldos st) →
                 saldo_name <$> saldos st' !! k = saldo_name <$> saldos st !! k
                 ∧ saldo_description <$> saldos st' !! k
                   = saldo_description <$> saldos st !! k) as Hsaved.
  { intros st' ->. by apply save_saldo_keeps_document. }
  destruct (transactions st !! id) as [t|]; [|by apply Hsaved].
  destruct (apply_patch castObjectId t p); by apply Hsaved.
Qed.

(** The transaction routes write amounts only: whatever the request and its
    answer, the store holds the same saldo documents afterwards, each with
    the name and the description it had. *)
Theorem transaction_routes_write_amounts_only op st k :
  saldo_name <$> saldos (step RegExp_i castObjectId ObjectId_toString op st).2 !! k
  = saldo_name <$> saldos st !! k
  ∧ saldo_description <$> saldos (step RegExp_i castObjectId ObjectId_toString op st).2 !! k
    = saldo_description <$> saldos st !! k.
Proof.
  destruct op as [b l|b|id p|id]; cbn [step].
  - unfold createWithPrediction.
    destruct (castObjectId (pb_saldo b)) as [s|]; [|done].
    destruct (saldos st !! s) as [sd|] eqn:Hsd; [|done].
    destruct (resolveCategory _ _ _ _) as [[c cats]|]; [|done].
    case_match; [done|].
    destruct (castObjectId (pb_user b)); cbn [snd Transaction_create saldos];
      by apply (save_saldo_keeps_document _ _ _ (mkStore (saldos st) (transactions st) cats)).
  - unfold createTransaction.
    destruct (castObjectId (cb_saldo b)) as [s|]; [|done].
    destruct (saldos st !! s) as [sd|] eqn:Hsd; [|done].
    destruct (castObjectId (cb_user b)), (castObjectId (cb_category b));
      cbn [snd Transaction_create saldos]; by apply save_saldo_keeps_document.
  - unfold updateTransaction.
    destruct (transactions st !! id) as [t|]; [|done].
    destruct (saldos st !! tx_saldo t) as [sd|] eqn:Hsd; [|done].
    destruct (saldo_changed ObjectId_toString p t) as [str|].
    + destruct (castObjectId str) as [s'|]; [|done].
      destruct (saldos st !! s') as [sd'|] eqn:Hsd'; [|done].
      destruct (reapply p _); [|done].
      by apply save_then_update_keeps_document.
    + destruct (reapply p _); [|done].
      by apply save_then_update_keeps_document.
  - unfold deleteTransaction.
    destruct (transactions st !! id) as [t|]; [|done].
    destruct (saldos st !! tx_saldo t) as [sd|] eqn:Hsd; [|done].
    cbn [snd Transaction_deleteOne saldos]. by apply save_saldo_keeps_document.
Qed.

End LedgerRoutes.

Section LedgerComposition.

Variable RegExp_i : string → option (string → bool).
Variable castObjectId : string → option nat.
Variable ObjectId_toString : nat → string.

Implicit Types (st : Store) (t : Transaction) (op : Op).

Local Abbreviation step_ := (step RegExp_i castObjectId ObjectId_toString).
Local Abbreviation update_ := (updateTransaction castObjectId ObjectId_toString).
Local Abbreviation create_ := (createTransaction castObjectId).
Local Abbreviation models_ := (createWithPrediction RegExp_i castObjectId).

Lemma revert_after_effect t a : revert t (a + effect t) = a.
Proof. unfold revert, effect. destruct (tx_type t); lia. Qed.

(** Deleting a transaction that was just stored on the saldo document [sd]
    puts saldos and transactions back. *)
Lemma delete_undoes_create t sd st :
  saldos st !! tx_saldo t = Some sd →
  deleteTransaction (fresh (dom (transactions st)))
    (Transaction_create t (save_saldo (tx_saldo t) sd (saldo_amount sd + effect t) st))
  = (Ok200, st).
Proof.
  intros Hsd. unfold deleteTransaction, Transaction_create, save_saldo.
  cbn [transactions saldos categories]. rewrite lookup_insert_eq.
  cbn [saldos]. rewrite lookup_insert_eq. cbn [saldo_amount saldo_name saldo_description].
  unfold Transaction_deleteOne, save_saldo. cbn [transactions saldos categories].
  rewrite revert_after_effect, saldo_eta, insert_insert_eq.
  rewrite (insert_id _ _ _ Hsd).
  rewrite delete_insert_id by apply fresh_id_unused.
  by rewrite store_eta.
Qed.

(** A creation that is answered with 200 and whose arithmetic stays within
    the safe integers is undone by deleting the new transaction: the
    delete request is answered with 200 and leaves the saldos and the
    transactions as they were before the creation.  After [POST ""] the
    whole store is as before; after [POST /models] the category the
    resolver may have created stays. *)
Theorem create_then_delete_restores op st :
  is_create op = true →
  (step_ op st).1 = Ok200 →
  forallb safe (arithmetic castObjectId st op) = true →
  deleteTransaction (fresh (dom (transactions st))) (step_ op st).2
  = (Ok200, mkStore (saldos st) (transactions st) (categories (step_ op st).2)).
Proof.
  destruct op as [b l|b|id p|id]; try discriminate; intros _; cbn [step].
  - unfold createWithPrediction.
    destruct (castObjectId (pb_saldo b)) as [s|]; [|discriminate].
    destruct (saldos st !! s) as [sd|] eqn:Hsd; [|discriminate].
    destruct (resolveCategory _ _ _ _) as [[c cats]|]; [|discriminate].
    case_match; [discriminate|].
    destruct (castObjectId (pb_user b)) as [u|]; [|discriminate].
    intros _ _. cbn [snd].
    set (t := mkTransaction u (cat_id c) s (pb_amount b) (pb_description b) (pb_type b)).
    pose proof (delete_undoes_create t sd (mkStore (saldos st) (transactions st) cats) Hsd)
      as Hundo.
    replace (saldo_amount sd + effect t)
      with (match pb_type b with
            | income => saldo_amount sd + pb_amount b
            | expense => saldo_amount sd - pb_amount b
            end) in Hundo
      by (unfold effect, t; cbn; destruct (pb_type b); lia).
    exact Hundo.
  - unfold createTransaction.
    destruct (castObjectId (cb_saldo b)) as [s|]; [|discriminate].
    destruct (saldos st !! s) as [sd|] eqn:Hsd; [|discriminate].
    destruct (castObjectId (cb_user b)) as [u|]; [|discriminate].
    destruct (castObjectId (cb_category b)) as [c|]; [|discriminate].
    intros _ _. cbn [snd].
    set (t := mkTransaction u c s (cb_amount b) (cb_description b) (cb_type b)).
    pose proof (delete_undoes_create t sd st Hsd) as Hundo.
    replace (saldo_amount sd + effect t)
      with (match cb_type b with
            | income => saldo_amount sd + cb_amount b
            | expense => saldo_amount sd - cb_amount b
            end) in Hundo
      by (unfold effect, t; cbn; destruct (cb_type b); lia).
    transitivity (Ok200, st); [exact Hundo | by destruct st].
Qed.

(** An update that carries a type and an amount, keeps the transaction on
    its saldo and is accepted has the balance effect of deleting the
    transaction and creating the patched one from the strings of its ids:
    both ways answer 200, end with the same saldo documents and store the
    patched transaction. *)
Theorem update_is_delete_then_create id p st t sd ty x t' :
  transactions st !! id = Some t →
  saldos st !! tx_saldo t = Some sd →
  saldo_changed ObjectId_toString p t = None →
  p_type p = Some ty →
  p_amount p = Some x →
  apply_patch castObjectId t p = Some t' →
  tx_saldo t' = tx_saldo t →
  castObjectId (ObjectId_toString (tx_user t')) = Some (tx_user t') →
  castObjectId (ObjectId_toString (tx_category t')) = Some (tx_category t') →
  castObjectId (ObjectId_toString (tx_saldo t')) = Some (tx_saldo t') →
  (update_ id p st).1 = Ok200
  ∧ (create_ (body_of ObjectId_toString t') (deleteTransaction id st).2).1 = Ok200
  ∧ saldos (update_ id p st).2
    = saldos (create_ (body_of ObjectId_toString t') (deleteTransaction id st).2).2
  ∧ transactions (update_ id p st).2 !! id = Some t'
  ∧ (∃ id', transactions (create_ (body_of ObjectId_toString t')
                            (deleteTransaction id st).2).2 !! id' = Some t').
Proof.
  intros Ht Hsd Hch Hty Hx Ht' Hbound Hu Hc Hs.
  destruct (apply_patch_Some castObjectId t p t' Ht')
    as (_ & _ & _ & Hamount & _ & Htype & _).
  rewrite Hx in Hamount. rewrite Hty in Htype. cbn in Hamount, Htype.
  unfold updateTransaction, deleteTransaction. rewrite Ht, Hsd, Hch.
  unfold reapply. rewrite Hty, Hx.
  unfold createTransaction, body_of.
  cbn [snd fst Transaction_deleteOne save_saldo saldos cb_saldo cb_user cb_category
       cb_type cb_amount cb_description].
  rewrite Hu, Hc, Hs, Hbound, lookup_insert_eq.
  cbn [saldo_amount saldo_name saldo_description].
  rewrite Htype, Hamount.
  unfold save_then_update, Transaction_findByIdAndUpdate.
  cbn [transactions save_saldo]. rewrite Ht, Ht'.
  assert (mkTransaction (tx_user t') (tx_category t') (tx_saldo t) x
                        (tx_description t') ty = t') as Heta.
  { destruct t'. cbn in *. by subst. }
  destruct ty; cbn.
  all: split; [done|]; split; [done|]; split; [|split].
  1,4: by rewrite insert_insert_eq.
  1,3: by rewrite lookup_insert_eq.
  all: exists (fresh (dom (delete id (transactions st))));
    by rewrite lookup_insert_eq, Heta.
Qed.

(** An update whose body names the saldo of the transaction by another
    string that casts to the same id (its digits in upper case, say) takes
    the branch of a changed saldo: the saldo is stored with the new effect
    applied to the amount it had, and the reversal of the old effect is
    lost. *)
Theorem update_same_saldo_other_string id p st t sd str a t' :
  transactions st !! id = Some t →
  saldos st !! tx_saldo t = Some sd →
  saldo_changed ObjectId_toString p t = Some str →
  castObjectId str = Some (tx_saldo t) →
  reapply p (saldo_amount sd) = Some a →
  apply_patch castObjectId t p = Some t' →
  (update_ id p st).1 = Ok200
  ∧ amount_of (tx_saldo t) (update_ id p st).2 = Some a
  ∧ transactions (update_ id p st).2 !! id = Some t'.
Proof.
  intros Ht Hsd Hch Hcast Ha Ht'. unfold updateTransaction, amount_of.
  rewrite Ht, Hsd, Hch, Hcast, Hsd, Ha.
  unfold save_then_update, Transaction_findByIdAndUpdate.
  cbn [transactions save_saldo]. rewrite Ht, Ht'. cbn.
  by rewrite !lookup_insert_eq.
Qed.

(** [POST /models] guards expenses only.  A committed expense leaves an
    amount that is not negative; an income commits whenever the saldo
    exists, the category can be resolved and the user is an id, whatever
    the sign of its amount, and the saldo is stored with the sum. *)
Theorem models_guard_covers_expenses_only b l st s sd :
  castObjectId (pb_saldo b) = Some s →
  saldos st !! s = Some sd →
  is_Some (resolveCategory RegExp_i l (pb_type b) (categories st)) →
  (pb_type b = expense →
     (models_ b l st).1 = Ok200 →
     amount_of s (models_ b l st).2 = Some (saldo_amount sd - pb_amount b)
     ∧ 0 ≤ saldo_amount sd - pb_amount b)
  ∧ (pb_type b = income →
     is_Some (castObjectId (pb_user b)) →
     (models_ b l st).1 = Ok200
     ∧ amount_of s (models_ b l st).2 = Some (saldo_amount sd + pb_amount b)).
Proof.
  intros Hs Hsd [[c cats] Hres]. unfold createWithPrediction, amount_of.
  rewrite Hs, Hsd, Hres. split; intros ->; cbn.
  - destruct (Z.ltb_spec (saldo_amount sd - pb_amount b) 0); cbn; [done|].
    destruct (castObjectId (pb_user b)); [|done].
    intros _. cbn. by rewrite lookup_insert_eq.
  - intros [u ->]. rewrite andb_false_r. cbn. by rewrite lookup_insert_eq.
Qed.

End LedgerComposition.

(* ===================================================================== *)
(** * Saldo routes and the ledger *)
(* ===================================================================== *)

Section SaldoRoutes.

Implicit Types (st : Store) (t : Transaction) (opening : nat → Z).

(** No stored transaction is bound to [s]: its effects add up to nothing. *)
Lemma bound_sum_unreferenced s (txs : gmap nat Transaction) :
  (∀ i t, txs !! i = Some t → tx_saldo t ≠ s) → bound_sum s txs = 0.
Proof.
  induction txs as [|i t txs Hi IH] using map_ind; intros Hfree.
  - apply bound_sum_empty.
  - rewrite bound_sum_insert_new by done.
    rewrite bound_effect_other by (apply (Hfree i); apply lookup_insert_eq).
    rewrite IH; [done|].
    intros j t' Hj. apply (Hfree j). rewrite lookup_insert_ne; [done|].
    intros ->. congruence.
Qed.

Lemma new_saldo_id_unused st :
  saldos st !! new_saldo_id st = None
  ∧ ∀ i t, transactions st !! i = Some t → tx_saldo t ≠ new_saldo_id st.
Proof.
  pose proof (is_fresh (dom (saldos st) ∪ referenced_saldos st)) as Hfresh.
  fold (new_saldo_id st) in Hfresh.
  apply not_elem_of_union in Hfresh as [Hdom Href]. split.
  - by apply not_elem_of_dom.
  - intros i t Hi Heq. apply Href. unfold referenced_saldos.
    apply elem_of_map_img. exists i. by rewrite lookup_fmap, Hi, <- Heq.
Qed.

(** Creating a saldo stores it under an id that was free, leaves every
    other saldo and every transaction as it was, and keeps the ledger
    invariant with the amount of the body as the opening amount of the new
    saldo. *)
Theorem createSaldo_opens_account opening b st :
  ledger_inv opening st →
  saldos st !! (createSaldo b st).1 = None
  ∧ getSaldo (createSaldo b st).1 (createSaldo b st).2
    = Some (mkSaldo (sb_name b) (sb_amount b) (sb_description b))
  ∧ (∀ k, k ≠ (createSaldo b st).1 →
       getSaldo k (createSaldo b st).2 = getSaldo k st)
  ∧ transactions (createSaldo b st).2 = transactions st
  ∧ ledger_inv (λ k, if bool_decide (k = (createSaldo b st).1)
                     then sb_amount b else opening k)
               (createSaldo b st).2.
Proof.
  intros Hinv. destruct (new_saldo_id_unused st) as [Hfree Hunref].
  unfold createSaldo, getSaldo. cbn [fst snd saldos transactions].
  split; [done|]. split; [by rewrite lookup_insert_eq|].
  split; [by intros k Hk; rewrite lookup_insert_ne|]. split; [done|].
  intros k sd Hk. cbn [saldos transactions] in *.
  destruct (decide (k = new_saldo_id st)) as [->|Hne].
  - rewrite lookup_insert_eq in Hk. injection Hk as <-.
    rewrite bool_decide_eq_true_2 by done.
    rewrite bound_sum_unreferenced by done. cbn. lia.
  - rewrite lookup_insert_ne in Hk by done.
    rewrite bool_decide_eq_false_2 by done. by apply Hinv.
Qed.

(** Updating a saldo: an unknown id is answered with 404 and changes
    nothing; otherwise the fields of the body are set and the others kept,
    no other saldo and no transaction is touched, and the ledger invariant
    holds with the opening amount of the saldo moved by the change of its
    amount (not at all when the body has no amount). *)
Theorem updateSaldo_rebases_opening opening id p st :
  ledger_inv opening st →
  match saldos st !! id with
  | None => updateSaldo id p st = (SaldoNotFound, st)
  | Some sd =>
      (updateSaldo id p st).1 = Ok200
      ∧ getSaldo id (updateSaldo id p st).2 = Some (apply_saldo_patch sd p)
      ∧ (∀ k, k ≠ id → getSaldo k (updateSaldo id p st).2 = getSaldo k st)
      ∧ transactions (updateSaldo id p st).2 = transactions st
      ∧ ledger_inv (rebase opening id (default (saldo_amount sd) (sp_amount p)
                                       - saldo_amount sd))
                   (updateSaldo id p st).2
      ∧ (sp_amount p = None → ledger_inv opening (updateSaldo id p st).2)
  end.
Proof.
  intros Hinv. unfold updateSaldo, getSaldo.
  destruct (saldos st !! id) as [sd|] eqn:Hsd; [|done].
  cbn [fst snd saldos transactions].
  split; [done|]. split; [by rewrite lookup_insert_eq|].
  split; [by intros k Hk; rewrite lookup_insert_ne|]. split; [done|].
  assert (∀ d, d = default (saldo_amount sd) (sp_amount p) - saldo_amount sd →
            ledger_inv (rebase opening id d)
              (mkStore (<[id := apply_saldo_patch sd p]> (saldos st))
                       (transactions st) (categories st))) as Hrebase.
  { intros d -> k sd' Hk. cbn [saldos transactions] in *. unfold rebase.
    destruct (decide (k = id)) as [->|Hne].
    - rewrite lookup_insert_eq in Hk. injection Hk as <-.
      rewrite bool_decide_eq_true_2 by done.
      pose proof (Hinv _ _ Hsd) as Hsd'. cbn in Hsd' |- *.
      destruct (sp_amount p); cbn; lia.
    - rewrite lookup_insert_ne in Hk by done.
      rewrite bool_decide_eq_false_2 by done. by apply Hinv. }
  split; [by apply Hrebase|].
  intros Hnone k sd' Hk.
  pose proof (Hrebase 0 ltac:(rewrite Hnone; cbn; lia) k sd' Hk) as Hk0.
  cbn [transactions] in Hk0 |- *. unfold rebase in Hk0.
  destruct (bool_decide (k = id)); lia.
Qed.

(** Deleting a saldo strands its transactions: the saldo is gone, the
    transactions bound to it stay in the store, and from then on every
    request to delete or to update one of them is answered with 404 and
    changes nothing. *)
Theorem deleteSaldo_strands_transactions castObjectId ObjectId_toString s st st' id t :
  deleteSaldo s st = (Ok200, st') →
  transactions st !! id = Some t →
  tx_saldo t = s →
  getSaldo s st' = None
  ∧ transactions st' !! id = Some t
  ∧ deleteTransaction id st' = (SaldoNotFound, st')
  ∧ ∀ p, updateTransaction castObjectId ObjectId_toString id p st'
         = (OriginalSaldoNotFound, st').
Proof.
  unfold deleteSaldo, getSaldo.
  destruct (saldos st !! s) as [sd|]; [|discriminate].
  intros [= <-] Ht <-. cbn [saldos transactions].
  assert (delete (tx_saldo t) (saldos st) !! tx_saldo t = None) as Hgone
    by apply lookup_delete_eq.
  split; [done|]. split; [done|].
  unfold deleteTransaction, updateTransaction. cbn [saldos transactions].
  rewrite Ht, Hgone. done.
Qed.

End SaldoRoutes.

(* ===================================================================== *)
(** * Categories: resolver and category routes *)
(* ===================================================================== *)

Section CategoryFacts.

Implicit Types (st : Store) (cats : list Category) (c : Category).

Lemma lower_ascii_idemp a : lower_ascii (lower_ascii a) = lower_ascii a.
Proof. destruct a as [[] [] [] [] [] [] [] []]; reflexivity. Qed.

(** An expression of the fragment matches the lower-case form of the label
    it was built from. *)
Lemma compiled_label_matches_itself label atoms :
  compile_body (label +:+ "$") = Some atoms →
  match_atoms atoms (toLowerCase label) = true.
Proof.
  revert atoms. induction label as [|a r IH]; intros atoms.
  - cbn. by intros [= <-].
  - change (String a r +:+ "$") with (String a (r +:+ "$")).
    cbn [compile_body toLowerCase].
    case_bool_decide as Hdollar.
    { destruct r; discriminate. }
    case_bool_decide as Hdot.
    + destruct (compile_body (r +:+ "$")) as [atoms'|]; [|discriminate].
      intros [= <-]. cbn [match_atoms]. rewrite (IH atoms') by done.
      subst a. reflexivity.
    + destruct (is_syntax_char a); [discriminate|].
      destruct (compile_body (r +:+ "$")) as [atoms'|]; [|discriminate].
      intros [= <-]. cbn [match_atoms atom_test]. rewrite (IH atoms') by done.
      rewrite lower_ascii_idemp. by rewrite bool_decide_eq_true_2.
Qed.

Lemma find_app_None {A} (f : A → bool) (l k : list A) :
  List.find f l = None → List.find f (l ++ k) = List.find f k.
Proof.
  induction l as [|x l IH]; cbn; [done|]. destruct (f x); [discriminate | done].
Qed.

(** The fragment matches the label it was built from, lowered. *)
Lemma fragment_matches_lowered_label label re :
  fragment_RegExp_i ("^" +:+ label +:+ "$") = Some re →
  re (toLowerCase label) = true.
Proof.
  change ("^" +:+ label +:+ "$") with (String "^" (label +:+ "$")).
  unfold fragment_RegExp_i. rewrite bool_decide_eq_true_2 by done.
  destruct (compile_body (label +:+ "$")) as [atoms|] eqn:Hc; [|discriminate].
  intros [= <-]. by apply compiled_label_matches_itself.
Qed.

(** Find-or-create is idempotent for a label of ASCII characters whose
    expression matches the label in lower case (as it does when the label
    has no syntax character other than the dot): resolving the label again,
    on the categories the first resolution left, answers with the same
    category and creates nothing. *)
Theorem resolveCategory_idempotent RegExp_i label ty cats c cats' re :
  ascii_only label = true →
  RegExp_i ("^" +:+ label +:+ "$") = Some re →
  re (toLowerCase label) = true →
  resolveCategory RegExp_i label ty cats = Some (c, cats') →
  resolveCategory RegExp_i label ty cats' = Some (c, cats').
Proof.
  intros _ Hre Hmatch. unfold resolveCategory. rewrite Hre.
  destruct (Category_findOne re ty cats) as [c0|] eqn:Hfind.
  - intros [= <- <-]. by rewrite Hfind.
  - intros [= <- <-]. unfold Category_create, Category_findOne in *.
    rewrite find_app_None by done. cbn.
    by rewrite Hmatch, bool_decide_eq_true_2.
Qed.

Lemma resolveCategory_keeps_ids RegExp_i label ty cats c cats' :
  resolveCategory RegExp_i label ty cats = Some (c, cats') →
  NoDup (cat_id <$> cats) →
  NoDup (cat_id <$> cats') ∧ cat_id c ∈ cat_id <$> cats'
  ∧ ∀ x, x ∈ cat_id <$> cats → x ∈ cat_id <$> cats'.
Proof.
  intros Hres Hnd.
  destruct (resolveCategory_extends RegExp_i _ _ _ _ _ Hres) as (Hin & _ & Hcase).
  split; [|split].
  - destruct Hcase as [-> | [-> Hid]]; [done|].
    rewrite fmap_app. apply NoDup_app. split; [done|]. split; [|apply NoDup_singleton].
    intros x Hx [->|[]%elem_of_nil]%elem_of_cons. rewrite Hid in Hx.
    by apply (infinite_is_fresh (cat_id <$> cats)).
  - apply list_elem_of_fmap. eauto.
  - destruct Hcase as [-> | [-> _]]; [done|].
    intros x Hx. rewrite fmap_app. apply elem_of_app. by left.
Qed.

(** [POST /models] keeps the references to categories sound: when the
    stored categories have distinct ids and every stored transaction refers
    to a stored category, the same holds after the request, whatever its
    answer. *)
Theorem models_create_keeps_category_references RegExp_i castObjectId b l st :
  distinct_category_ids st →
  categories_resolve st →
  distinct_category_ids (createWithPrediction RegExp_i castObjectId b l st).2
  ∧ categories_resolve (createWithPrediction RegExp_i castObjectId b l st).2.
Proof.
  intros Hnd Href. unfold createWithPrediction.
  destruct (castObjectId (pb_saldo b)) as [s|]; [|done].
  destruct (saldos st !! s) as [sd|]; [|done].
  destruct (resolveCategory _ _ _ _) as [[c cats]|] eqn:Hres; [|done].
  destruct (resolveCategory_keeps_ids _ _ _ _ _ _ Hres Hnd) as (Hnd' & Hc & Hsub).
  assert (map_Forall (λ _ t, tx_category t ∈ cat_id <$> cats) (transactions st)) as Href'.
  { intros i t Hi. apply Hsub. by apply (Href i). }
  case_match; [done|].
  unfold distinct_category_ids, categories_resolve.
  destruct (castObjectId (pb_user b)) as [u|];
    cbn [snd Transaction_create save_saldo categories transactions].
  - split; [done|]. by apply map_Forall_insert_2.
  - done.
Qed.

(** Deleting a category leaves the transactions that refer to it in the
    store; from then on they are populated without a category and learned
    under the label [unknown]. *)
Theorem deleteCategory_turns_label_unknown id st st' t :
  deleteCategory id st = Some st' →
  tx_category t = id →
  transactions st' = transactions st
  ∧ ptx_category (populate (categories st') t) = None
  ∧ categoryName (populate (categories st') t) = "unknown".
Proof.
  unfold deleteCategory. destruct (List.find _ _); [|discriminate].
  intros [= <-] <-. cbn [transactions categories].
  assert (List.find (λ c, bool_decide (cat_id c = tx_category t))
            (filter (λ c, cat_id c ≠ tx_category t) (categories st)) = None) as Hnone.
  { destruct (List.find _ _) as [c'|] eqn:Hfind; [|done].
    apply find_some in Hfind as [Hin Hid]. apply bool_decide_eq_true in Hid.
    apply list_elem_of_In, list_elem_of_filter in Hin as [Hne _]. done. }
  unfold populate, categoryName. cbn. by rewrite Hnone.
Qed.

End CategoryFacts.

(* ===================================================================== *)
(** * Paging *)
(* ===================================================================== *)

Section Paging.

Context {A : Type}.
Implicit Types (l : list A) (page limit : nat).

Lemma concat_pages l limit k :
  concat ((λ page, list_page page limit l) <$> seq 1 k) = take (k * limit) l.
Proof.
  induction k as [|k IH]; [done|].
  rewrite seq_S, fmap_app, concat_app, IH.
  change (concat ((λ page, list_page page limit l) <$> [(1 + k)%nat]))
    with (list_page (1 + k) limit l ++ []).
  rewrite app_nil_r. unfold list_page.
  replace (1 + k - 1)%nat with k by lia.
  rewrite take_take_drop. f_equal. lia.
Qed.

Lemma page_count_bounds total limit :
  (1 ≤ limit)%nat →
  (total ≤ page_count total limit * limit)%nat
  ∧ (page_count total limit * limit < total + limit)%nat.
Proof.
  intros Hl. unfold page_count.
  pose proof (Nat.div_mod_eq (total + limit - 1) limit) as Hdm.
  pose proof (Nat.mod_upper_bound (total + limit - 1) limit) as Hm.
  nia.
Qed.

(** The pages of a [/list] route cut the sorted collection without loss:
    for a limit of one or more, the [pages] pages the answer announces,
    one after the other, are the whole collection; no page is longer than
    the limit, every announced page has an item, and every later page is
    empty. *)
Theorem list_pages_cover_collection l limit :
  (1 ≤ limit)%nat →
  concat ((λ page, list_page page limit l) <$> seq 1 (page_count (length l) limit)) = l
  ∧ ∀ page, (1 ≤ page)%nat →
      (length (list_page page limit l) ≤ limit)%nat
      ∧ ((page ≤ page_count (length l) limit)%nat → list_page page limit l ≠ [])
      ∧ ((page_count (length l) limit < page)%nat → list_page page limit l = []).
Proof.
  intros Hl. destruct (page_count_bounds (length l) limit Hl) as [Hlo Hhi]. split.
  - rewrite concat_pages. by apply take_ge.
  - intros page Hp. unfold list_page. split; [|split].
    + rewrite length_take. lia.
    + intros Hle Hnil. apply (f_equal length) in Hnil.
      rewrite length_take, length_drop in Hnil. cbn in Hnil. nia.
    + intros Hlt. rewrite drop_ge; [by rewrite take_nil | nia].
Qed.

End Paging.

(* ===================================================================== *)
(** * Further properties of the classifier service *)
(* ===================================================================== *)

Section ServiceFacts.

Variable Classifier : Type.
Variable bayes : Classifier.
Variable learn : Classifier → string → string → Classifier.
Variable categorize : Classifier → string → option string.
Variable toJson : Classifier → string.
Variable fromJson : string → option Classifier.
Variable JSON_parse : string → bool.

Local Abbreviation live_ := (live Classifier bayes).
Local Abbreviation learn_tx_ := (learn_tx Classifier learn).
Local Abbreviation train_ := (trainClassifier Classifier bayes learn toJson).
Local Abbreviation load_ := (loadModel Classifier bayes fromJson JSON_parse).
Local Abbreviation predict_ := (predictCategory Classifier bayes learn categorize toJson).
Local Abbreviation reset_ := (resetModel Classifier bayes).

Implicit Types (sv : Service Classifier) (txs : list PopulatedTx).

Lemma service_eta sv :
  mkService (objects sv) (classifier sv) (isModelReady sv) (lastTrainingDate sv)
            (model_file sv) (backup_file sv) (file_ops sv) = sv.
Proof. by destruct sv. Qed.

Lemma mutate_live_id sv : mutate_live Classifier bayes (λ _, live_ sv) sv = sv.
Proof.
  unfold mutate_live, live.
  destruct (objects sv !! classifier sv) as [c|] eqn:Hc; cbn.
  - rewrite list_insert_id by done. apply service_eta.
  - rewrite list_insert_ge by (by apply lookup_ge_None). apply service_eta.
Qed.

Lemma train_nothing now sv : train_ now [] sv = (false, sv).
Proof. unfold trainClassifier. cbn. by rewrite mutate_live_id. Qed.

(** Training on an empty collection reports [false] and changes nothing:
    not the live classifier, not the readiness flag, not the files. *)
Theorem trainClassifier_without_transactions now sv :
  (trainClassifier Classifier bayes learn toJson now [] sv).1 = false
  ∧ (trainClassifier Classifier bayes learn toJson now [] sv).2 = sv.
Proof. by rewrite train_nothing. Qed.

Lemma trainClassifier_unfold now txs sv :
  txs ≠ [] →
  train_ now txs sv
  = (true,
     set_ready Classifier true
       (set_lastTrainingDate Classifier (Some now)
          (saveModel Classifier bayes toJson
             (mutate_live Classifier bayes
                (λ _, fold_left learn_tx_ txs (live_ sv)) sv)).2)).
Proof.
  intros Hne. unfold trainClassifier.
  rewrite (train_pages_from_start Classifier learn).
  rewrite bool_decide_eq_true_2 by (destruct txs; [done | cbn; lia]).
  done.
Qed.

(** What a run of [trainClassifier] on a collection that is not empty
    leaves behind. *)
Lemma trainClassifier_result now txs sv :
  wf_service sv →
  txs ≠ [] →
  (train_ now txs sv).1 = true
  ∧ classifier (train_ now txs sv).2 = classifier sv
  ∧ length (objects (train_ now txs sv).2) = length (objects sv)
  ∧ live_ (train_ now txs sv).2 = fold_left learn_tx_ txs (live_ sv)
  ∧ isModelReady (train_ now txs sv).2 = true
  ∧ lastTrainingDate (train_ now txs sv).2 = Some now
  ∧ model_file (train_ now txs sv).2
    = Some (toJson (fold_left learn_tx_ txs (live_ sv)))
  ∧ backup_file (train_ now txs sv).2
    = match model_file sv with
      | Some old => Some old
      | None => backup_file sv
      end.
Proof.
  intros Hwf Hne. rewrite trainClassifier_unfold by done.
  pose proof (live_mutate_live Classifier bayes
                (λ _, fold_left learn_tx_ txs (live_ sv)) sv Hwf) as Hlive.
  cbv beta in Hlive.
  set (sv1 := mutate_live Classifier bayes
                (λ _, fold_left learn_tx_ txs (live_ sv)) sv) in *.
  assert (model_file sv1 = model_file sv) as Hm by done.
  assert (backup_file sv1 = backup_file sv) as Hb by done.
  assert (classifier sv1 = classifier sv) as Hc by done.
  assert (length (objects sv1) = length (objects sv)) as Hl
    by (subst sv1; cbn; apply length_insert).
  unfold saveModel. rewrite Hlive, Hm.
  destruct (model_file sv) as [old|]; cbn [fst snd].
  - split; [done|]. split; [exact Hc|]. split; [exact Hl|]. split; [exact Hlive|].
    split; [done|]. split; [done|]. split; done.
  - split; [done|]. split; [exact Hc|]. split; [exact Hl|]. split; [exact Hlive|].
    split; [done|]. split; [done|]. split; [done | exact Hb].
Qed.

(** Training on a collection that is not empty reports [true], makes the
    service ready and records the time.  The primary file then holds the
    encoding of the live classifier, and the backup holds what the primary
    file held before, or what it held itself when there was no primary
    file: one generation is kept. *)
Theorem trainClassifier_persists_and_rotates now txs sv :
  wf_service sv →
  txs ≠ [] →
  (train_ now txs sv).1 = true
  ∧ isModelReady (train_ now txs sv).2 = true
  ∧ lastTrainingDate (train_ now txs sv).2 = Some now
  ∧ model_file (train_ now txs sv).2 = Some (toJson (live_ (train_ now txs sv).2))
  ∧ backup_file (train_ now txs sv).2
    = match model_file sv with
      | Some old => Some old
      | None => backup_file sv
      end.
Proof.
  intros Hwf Hne.
  destruct (trainClassifier_result now txs sv Hwf Hne)
    as (Hres & _ & _ & Hlive & Hready & Hdate & Hfile & Hbackup).
  rewrite Hlive. done.
Qed.

(** What training saves is what the next start loads: if the encoding of
    the trained classifier is not blank and is read back by [JSON.parse]
    and [fromJson], then [loadModel] on the state training leaves reports
    [true], the live classifier is the trained one, and neither file is
    changed nor the backup read. *)
Theorem train_then_load_round_trip now txs sv :
  wf_service sv →
  txs ≠ [] →
  let trained := fold_left learn_tx_ txs (live_ sv) in
  is_blank (toJson trained) = false →
  JSON_parse (toJson trained) = true →
  fromJson (toJson trained) = Some trained →
  (load_ (train_ now txs sv).2).1 = true
  ∧ live_ (load_ (train_ now txs sv).2).2 = trained
  ∧ isModelReady (load_ (train_ now txs sv).2).2 = true
  ∧ model_file (load_ (train_ now txs sv).2).2 = model_file (train_ now txs sv).2
  ∧ backup_file (load_ (train_ now txs sv).2).2 = backup_file (train_ now txs sv).2
  ∧ backup_reads (file_ops (load_ (train_ now txs sv).2).2)
    = backup_reads (file_ops (train_ now txs sv).2).
Proof.
  intros Hwf Hne trained Hblank Hjson Hback.
  destruct (trainClassifier_result now txs sv Hwf Hne)
    as (_ & _ & _ & _ & _ & _ & Hfile & _).
  fold trained in Hfile.
  unfold loadModel. rewrite Hfile.
  unfold parse_primary. rewrite Hblank, Hjson, Hback.
  cbn [fst snd]. split; [done|]. split; [apply live_assign_new|].
  cbn [set_ready assign_new readFile file_op isModelReady model_file backup_file file_ops].
  rewrite backup_reads_app. change (backup_reads [ReadPrimary]) with 0%nat.
  split; [done|]. split; [done|]. split; [done|]. lia.
Qed.

(** [predictCategory] never answers the empty string.  On a ready service
    it changes nothing and answers with the label of the live classifier,
    or [uncategorized] when there is none; on a service that is not ready
    with an empty collection it changes nothing and answers
    [uncategorized]. *)
Theorem predictCategory_answers now txs description ty sv :
  (predict_ now txs description ty sv).1 ≠ ""
  ∧ (isModelReady sv = true →
       (predict_ now txs description ty sv).2 = sv
       ∧ (predict_ now txs description ty sv).1
         = match categorize (live_ sv) (inputText description ty) with
           | Some prediction =>
               if bool_decide (prediction = "") then "uncategorized" else prediction
           | None => "uncategorized"
           end)
  ∧ (isModelReady sv = false → txs = [] →
       predict_ now txs description ty sv = ("uncategorized", sv)).
Proof.
  split; [|split].
  - unfold predictCategory.
    repeat case_match; cbn [fst]; try done; by case_bool_decide.
  - intros Hr. unfold predictCategory. rewrite Hr. cbn [negb]. rewrite Hr.
    by destruct (categorize _ _).
  - intros Hr ->. unfold predictCategory, ensureModelReady. rewrite Hr. cbn [negb].
    rewrite train_nothing. cbn [snd]. by rewrite Hr.
Qed.

(** The first prediction on a service that is not ready trains it: with a
    collection that is not empty the service is left as
    [trainClassifier] leaves it, ready and with the model saved, and the
    answer comes from the classifier so trained. *)
Theorem predictCategory_trains_on_demand now txs description ty sv :
  wf_service sv →
  isModelReady sv = false →
  txs ≠ [] →
  (predict_ now txs description ty sv).2 = (train_ now txs sv).2
  ∧ isModelReady (predict_ now txs description ty sv).2 = true
  ∧ (predict_ now txs description ty sv).1
    = match categorize (fold_left learn_tx_ txs (live_ sv)) (inputText description ty) with
      | Some prediction =>
          if bool_decide (prediction = "") then "uncategorized" else prediction
      | None => "uncategorized"
      end.
Proof.
  intros Hwf Hr Hne.
  destruct (trainClassifier_result now txs sv Hwf Hne)
    as (_ & _ & _ & Hlive & Hready & _).
  unfold predictCategory, ensureModelReady. rewrite Hr. cbn [negb].
  rewrite Hready, Hlive. by destruct (categorize _ _).
Qed.

(** Resetting removes both files and leaves a service that is not ready,
    with an empty classifier and no training date; a start after it finds
    no file, reads none and reports [false]. *)
Theorem resetModel_forgets_everything sv :
  model_file (reset_ sv) = None
  ∧ backup_file (reset_ sv) = None
  ∧ isModelReady (reset_ sv) = false
  ∧ lastTrainingDate (reset_ sv) = None
  ∧ live_ (reset_ sv) = bayes
  ∧ (load_ (reset_ sv)).1 = false
  ∧ live_ (load_ (reset_ sv)).2 = bayes
  ∧ isModelReady (load_ (reset_ sv)).2 = false
  ∧ file_ops (load_ (reset_ sv)).2 = file_ops (reset_ sv).
Proof.
  assert (model_file (reset_ sv) = None) as Hm
    by (unfold resetModel; destruct (model_file sv) eqn:E; cbn; rewrite ?E; reflexivity).
  split; [done|]. split; [done|]. split; [done|]. split; [done|].
  split; [apply live_assign_new|].
  unfold loadModel. rewrite Hm. cbn [fst snd].
  split; [done|].
  split; [exact (live_assign_new Classifier bayes bayes (reset_ sv))|]. done.
Qed.

End ServiceFacts.

(* ===================================================================== *)
(** * The confusion matrix and the metrics *)
(* ===================================================================== *)

Section MatrixFacts.

Implicit Types (m : gmap string (gmap string nat)) (a p : string)
               (cats : gset string) (items : list Prediction).

Lemma cell_init cats a p : cell (init_matrix cats) a p = 0%nat.
Proof.
  unfold cell, init_matrix.
  destruct (gset_to_gmap (gset_to_gmap 0%nat cats) cats !! a) as [row|] eqn:Hrow; [|done].
  apply lookup_gset_to_gmap_Some in Hrow as [_ <-]. cbn.
  destruct (gset_to_gmap 0%nat cats !! p) as [n|] eqn:Hn; [|done].
  by apply lookup_gset_to_gmap_Some in Hn as [_ <-].
Qed.

Lemma full_init cats : full_matrix cats (init_matrix cats).
Proof.
  split; [apply dom_gset_to_gmap|].
  intros a row [_ <-]%lookup_gset_to_gmap_Some. apply dom_gset_to_gmap.
Qed.

Lemma cell_bump m a p a' p' :
  is_Some (m !! a) →
  cell (bump m a p) a' p'
  = (cell m a' p' + if bool_decide (a' = a ∧ p' = p) then 1 else 0)%nat.
Proof.
  intros [row Hrow]. unfold bump, cell. rewrite Hrow.
  destruct (decide (a' = a)) as [->|Ha].
  - rewrite lookup_insert_eq, Hrow. cbn.
    destruct (decide (p' = p)) as [->|Hp].
    + rewrite lookup_insert_eq, bool_decide_eq_true_2 by done. cbn.
      destruct (row !! p); cbn; lia.
    + rewrite lookup_insert_ne by done.
      rewrite bool_decide_eq_false_2 by (intros [_ ?]; done). lia.
  - rewrite lookup_insert_ne by done.
    rewrite bool_decide_eq_false_2 by (intros [? _]; done). lia.
Qed.

Lemma full_bump cats m a p :
  full_matrix cats m → a ∈ cats → p ∈ cats → full_matrix cats (bump m a p).
Proof.
  intros [Hdom Hrows] Ha Hp. unfold bump.
  destruct (m !! a) as [row|] eqn:Hrow; [|done]. split.
  - rewrite dom_insert_L, Hdom. set_solver.
  - intros a' row' Hrow'. destruct (decide (a' = a)) as [->|Hne].
    + rewrite lookup_insert_eq in Hrow'. injection Hrow' as <-.
      rewrite dom_insert_L, (Hrows _ _ Hrow). set_solver.
    + rewrite lookup_insert_ne in Hrow' by done. by apply (Hrows a').
Qed.

Lemma count_pair_cons a p item items :
  count_pair a p (item :: items)
  = ((if bool_decide (pr_actualCategory item = a ∧ predicted_key item = p)
      then 1 else 0) + count_pair a p items)%nat.
Proof.
  unfold count_pair. rewrite filter_cons.
  case_decide; [rewrite bool_decide_eq_true_2 by done
               | rewrite bool_decide_eq_false_2 by done]; done.
Qed.

Lemma fold_bump cats items m :
  full_matrix cats m →
  (∀ item, item ∈ items → pr_actualCategory item ∈ cats ∧ predicted_key item ∈ cats) →
  full_matrix cats
    (fold_left (λ m item, bump m (pr_actualCategory item) (predicted_key item)) items m)
  ∧ ∀ a p,
      cell (fold_left (λ m item, bump m (pr_actualCategory item) (predicted_key item))
                      items m) a p
      = (cell m a p + count_pair a p items)%nat.
Proof.
  revert m. induction items as [|item items IH]; intros m Hfull Hin.
  - split; [done|]. intros a p. cbn. unfold count_pair. cbn. lia.
  - destruct (Hin item) as [Ha Hp]; [by left|].
    destruct (IH (bump m (pr_actualCategory item) (predicted_key item))) as [Hfull' Hcell].
    + by apply full_bump.
    + intros item' Hitem'. apply Hin. by right.
    + split; [done|]. intros a p. cbn [fold_left].
      rewrite Hcell, cell_bump, count_pair_cons.
      * assert (bool_decide (a = pr_actualCategory item ∧ p = predicted_key item)
                = bool_decide (pr_actualCategory item = a ∧ predicted_key item = p)) as ->
          by (apply bool_decide_ext; naive_solver).
        lia.
      * apply elem_of_dom. destruct Hfull as [-> _]. done.
Qed.

Lemma seen_categories_spec items item :
  item ∈ items →
  pr_actualCategory item ∈ seen_categories items
  ∧ predicted_key item ∈ seen_categories items.
Proof.
  intros Hin. unfold seen_categories.
  split; apply elem_of_list_to_set, list_elem_of_In, in_flat_map;
    exists item; (split; [by apply list_elem_of_In | cbn; auto]).
Qed.

Lemma matrix_cells items :
  full_matrix (seen_categories items) (generateConfusionMatrix items)
  ∧ ∀ a p, cell (generateConfusionMatrix items) a p = count_pair a p items.
Proof.
  destruct (fold_bump (seen_categories items) items (init_matrix (seen_categories items)))
    as [Hfull Hcell].
  - apply full_init.
  - intros item Hin. by apply seen_categories_spec.
  - split; [exact Hfull|]. intros a p. unfold generateConfusionMatrix.
    by rewrite Hcell, cell_init.
Qed.

(** The confusion matrix counts the test data: it has a row and a column
    for every label that occurs as an actual or as a predicted label,
    zeros included, and the cell of an actual label [a] and a predicted
    label [p] is the number of test items with these two labels. *)
Theorem confusion_matrix_counts items a p :
  full_matrix (seen_categories items) (generateConfusionMatrix items)
  ∧ cell (generateConfusionMatrix items) a p = count_pair a p items.
Proof. destruct (matrix_cells items) as [Hfull Hcell]. by split. Qed.

Lemma matrix_keys_spec m c : c ∈ matrix_keys m ↔ c ∈ dom m.
Proof.
  unfold matrix_keys. rewrite list_elem_of_fmap, elem_of_dom. split.
  - intros ([c' row] & -> & Hin). apply elem_of_map_to_list in Hin. by exists row.
  - intros [row Hrow]. exists (c, row). split; [done|]. by apply elem_of_map_to_list.
Qed.

Lemma sum_list_with_split (f : string → nat) (l : list string) c :
  NoDup l → c ∈ l →
  sum_list_with f l
  = (f c + sum_list_with (λ o, if bool_decide (o = c) then 0 else f o) l)%nat.
Proof.
  induction 1 as [|x l Hx Hnd IH]; intros Hc; [by apply elem_of_nil in Hc|].
  cbn. apply elem_of_cons in Hc as [->|Hc].
  - rewrite bool_decide_eq_true_2 by done.
    assert (sum_list_with (λ o, if bool_decide (o = x) then 0%nat else f o) l
            = sum_list_with f l) as ->; [|lia].
    clear IH. induction l as [|y l IHl]; [done|]. cbn.
    apply not_elem_of_cons in Hx as [Hne Hx]. apply NoDup_cons in Hnd as [_ Hnd].
    rewrite bool_decide_eq_false_2 by done. by rewrite IHl.
  - rewrite bool_decide_eq_false_2 by (intros ->; done). rewrite IH by done. lia.
Qed.

Lemma sum_indicator (l : list string) x :
  NoDup l → x ∈ l →
  sum_list_with (λ o, if bool_decide (x = o) then 1 else 0)%nat l = 1%nat.
Proof.
  intros Hnd Hx.
  rewrite (sum_list_with_split _ l x Hnd Hx), bool_decide_eq_true_2 by done.
  assert (sum_list_with
            (λ o, if bool_decide (o = x) then 0
                  else if bool_decide (x = o) then 1 else 0)%nat l = 0%nat) as ->; [|done].
  clear. induction l as [|y l IH]; [done|]. cbn. rewrite IH.
  repeat case_bool_decide; first [done | by subst].
Qed.

Lemma sum_list_with_pointwise (f g : string → nat) (l : list string) :
  (∀ o, f o = g o) → sum_list_with f l = sum_list_with g l.
Proof. intros Hfg. induction l as [|y l IH]; [done|]. cbn. by rewrite Hfg, IH. Qed.

Lemma sum_list_with_zero (l : list string) : sum_list_with (λ _, 0%nat) l = 0%nat.
Proof. induction l as [|y l IH]; [done|]. cbn. by rewrite IH. Qed.

Lemma sum_list_with_plus (f g : string → nat) (l : list string) :
  sum_list_with (λ o, f o + g o)%nat l = (sum_list_with f l + sum_list_with g l)%nat.
Proof. induction l as [|y l IH]; [done|]. cbn. rewrite IH. lia. Qed.

Lemma count_actual_cons a item items :
  count_actual a (item :: items)
  = ((if bool_decide (pr_actualCategory item = a) then 1 else 0) + count_actual a items)%nat.
Proof.
  unfold count_actual. rewrite filter_cons.
  case_decide; [rewrite bool_decide_eq_true_2 by done
               | rewrite bool_decide_eq_false_2 by done]; done.
Qed.

Lemma count_predicted_cons p item items :
  count_predicted p (item :: items)
  = ((if bool_decide (predicted_key item = p) then 1 else 0) + count_predicted p items)%nat.
Proof.
  unfold count_predicted. rewrite filter_cons.
  case_decide; [rewrite bool_decide_eq_true_2 by done
               | rewrite bool_decide_eq_false_2 by done]; done.
Qed.

(** Summed over distinct keys that hold every predicted label, the cells
    of a row count the items with the actual label of the row. *)
Lemma sum_count_pair_row (keys : list string) a items :
  NoDup keys →
  (∀ item, item ∈ items → predicted_key item ∈ keys) →
  sum_list_with (λ o, count_pair a o items) keys = count_actual a items.
Proof.
  intros Hnd. induction items as [|item items IH]; intros Hin.
  - apply sum_list_with_zero.
  - rewrite (sum_list_with_pointwise _ _ keys (λ o, count_pair_cons a o item items)).
    rewrite sum_list_with_plus, count_actual_cons.
    rewrite IH by (intros; apply Hin; by right). f_equal.
    case_bool_decide as Ha.
    + etrans; [|apply (sum_indicator keys (predicted_key item) Hnd); apply Hin; by left].
      apply sum_list_with_pointwise. intros o.
      apply (f_equal (λ b : bool, if b then 1%nat else 0%nat)).
      apply bool_decide_ext. split; [by intros [_ ?] | done].
    + etrans; [|apply (sum_list_with_zero keys)].
      apply sum_list_with_pointwise. intros o.
      by rewrite bool_decide_eq_false_2 by (intros [? _]; done).
Qed.

(** The same for a column and the predicted label. *)
Lemma sum_count_pair_column (keys : list string) p items :
  NoDup keys →
  (∀ item, item ∈ items → pr_actualCategory item ∈ keys) →
  sum_list_with (λ o, count_pair o p items) keys = count_predicted p items.
Proof.
  intros Hnd. induction items as [|item items IH]; intros Hin.
  - apply sum_list_with_zero.
  - rewrite (sum_list_with_pointwise _ _ keys (λ o, count_pair_cons o p item items)).
    rewrite sum_list_with_plus, count_predicted_cons.
    rewrite IH by (intros; apply Hin; by right). f_equal.
    case_bool_decide as Hp.
    + etrans; [|apply (sum_indicator keys (pr_actualCategory item) Hnd); apply Hin; by left].
      apply sum_list_with_pointwise. intros o.
      apply (f_equal (λ b : bool, if b then 1%nat else 0%nat)).
      apply bool_decide_ext. split; [by intros [? _] | done].
    + etrans; [|apply (sum_list_with_zero keys)].
      apply sum_list_with_pointwise. intros o.
      by rewrite bool_decide_eq_false_2 by (intros [_ ?]; done).
Qed.

End MatrixFacts.

Section EvaluationFacts.

Variable Classifier : Type.
Variable bayes : Classifier.
Variable learn : Classifier → string → string → Classifier.
Variable categorize : Classifier → string → option string.
Variable round4 : Q → Q.

Local Abbreviation metrics_of_ := (metrics_of round4).
Local Abbreviation calculateMetrics_ := (calculateMetrics round4).
Local Abbreviation evaluateModel_ :=
  (evaluateModel Classifier bayes learn categorize round4).
Local Abbreviation predictions_ :=
  (evaluation_predictions Classifier bayes learn categorize).

Implicit Types (items : list Prediction) (c : string).

Lemma matrix_sums items c :
  c ∈ seen_categories items →
  (cell (generateConfusionMatrix items) c c
   + falseNegatives (generateConfusionMatrix items) c)%nat = count_actual c items
  ∧ (cell (generateConfusionMatrix items) c c
     + falsePositives (generateConfusionMatrix items) c)%nat = count_predicted c items.
Proof.
  intros Hc. set (m := generateConfusionMatrix items).
  destruct (matrix_cells items) as [[Hdom _] Hcells]. fold m in Hdom, Hcells.
  assert (NoDup (matrix_keys m)) as Hnd by apply NoDup_fst_map_to_list.
  assert (c ∈ matrix_keys m) as Hkey by (apply matrix_keys_spec; by rewrite Hdom).
  assert (∀ item, item ∈ items →
            pr_actualCategory item ∈ matrix_keys m ∧ predicted_key item ∈ matrix_keys m)
    as Hin.
  { intros item Hitem. rewrite !matrix_keys_spec, Hdom.
    by apply seen_categories_spec. }
  unfold falseNegatives, falsePositives. split.
  - rewrite <- (sum_list_with_split (λ o, cell m c o) _ c Hnd Hkey).
    rewrite <- (sum_count_pair_row (matrix_keys m) c items Hnd) by (intros; by apply Hin).
    apply sum_list_with_pointwise. intros o.
    apply Hcells.
  - rewrite <- (sum_list_with_split (λ o, cell m o c) _ c Hnd Hkey).
    rewrite <- (sum_count_pair_column (matrix_keys m) c items Hnd) by (intros; by apply Hin).
    apply sum_list_with_pointwise. intros o.
    apply Hcells.
Qed.

(** The metrics have an entry for every label of the matrix.  Its support
    is the number of test items with that actual label, its true and false
    positives together are the number of test items with that predicted
    label, and a label that was never predicted, or never actual, has the
    precision, or the recall, of a zero quotient instead of a division by
    zero. *)
Theorem metrics_count_test_data items c :
  c ∈ seen_categories items →
  calculateMetrics_ (generateConfusionMatrix items) !! c
  = Some (metrics_of_ (generateConfusionMatrix items) c)
  ∧ m_support (metrics_of_ (generateConfusionMatrix items) c) = count_actual c items
  ∧ (cell (generateConfusionMatrix items) c c
     + falsePositives (generateConfusionMatrix items) c)%nat = count_predicted c items
  ∧ (count_predicted c items = 0%nat →
       m_precision (metrics_of_ (generateConfusionMatrix items) c) = round4 0)
  ∧ (count_actual c items = 0%nat →
       m_recall (metrics_of_ (generateConfusionMatrix items) c) = round4 0).
Proof.
  intros Hc. destruct (matrix_sums items c Hc) as [Hfn Hfp].
  destruct (matrix_cells items) as [[Hdom _] _].
  split; [|split; [|split; [|split]]].
  - unfold calculateMetrics. rewrite map_lookup_imap.
    assert (is_Some (generateConfusionMatrix items !! c)) as [row ->]
      by (apply elem_of_dom; by rewrite Hdom).
    done.
  - exact Hfn.
  - exact Hfp.
  - intros Hzero. unfold metrics_of. cbn [m_precision]. rewrite Hfp, Hzero. done.
  - intros Hzero. unfold metrics_of. cbn [m_recall]. rewrite Hfn, Hzero. done.
Qed.

(** The evaluation needs ten transactions.  With ten or more it trains on
    the first four fifths (rounded down) and tests on the rest: the two
    parts, one after the other, are the fetched transactions, at least
    eight are learned and at least two are tested.  The answer gives the
    number of tested transactions as the sample size, the confusion matrix
    of all their predictions, and the predictions of the first twenty
    tested transactions only. *)
Theorem evaluateModel_splits_without_loss all :
  let fetched := take 1000 all in
  let index := splitIndex (length fetched) in
  ((length fetched < 10)%nat → evaluateModel_ all = EvalInsufficientData)
  ∧ ((10 ≤ length fetched)%nat →
       slice 0 index fetched ++ slice_from index fetched = fetched
       ∧ (8 ≤ length (slice 0 index fetched))%nat
       ∧ (2 ≤ length (slice_from index fetched))%nat
       ∧ ∃ accuracy metrics sample,
           evaluateModel_ all
           = EvalSuccess accuracy (length (slice_from index fetched))
                         (generateConfusionMatrix (predictions_ fetched))
                         metrics sample
           ∧ sample = take 20 (predictions_ fetched)
           ∧ length (predictions_ fetched) = length (slice_from index fetched)
           ∧ length sample = (20 `min` length (slice_from index fetched))%nat).
Proof.
  intros fetched index. unfold evaluateModel. fold fetched. split.
  - intros Hlt. by rewrite bool_decide_eq_true_2 by lia.
  - intros Hge. rewrite bool_decide_eq_false_2 by lia.
    assert (index ≤ length fetched ∧ 8 ≤ index ∧ 2 ≤ length fetched - index)%nat
      as (Hle & H8 & H2).
    { unfold index, splitIndex.
      pose proof (Nat.div_mod_eq (4 * length fetched) 5).
      pose proof (Nat.mod_upper_bound (4 * length fetched) 5). lia. }
    unfold slice, slice_from. rewrite drop_0, Nat.sub_0_r.
    split; [apply take_drop|]. split; [rewrite length_take; lia|].
    split; [rewrite length_drop; lia|].
    assert (length (predictions_ fetched) = length (drop index fetched)) as Hlen.
    { unfold evaluation_predictions. fold index. unfold slice_from.
      by rewrite length_fmap. }
    eexists _, _, _. rewrite Hlen. split; [reflexivity|]. split; [reflexivity|].
    split; [reflexivity|]. by rewrite length_take, Hlen.
Qed.

End EvaluationFacts.

(* ===================================================================== *)
(** * The dashboard routes *)
(* ===================================================================== *)

Section DashboardFacts.

Implicit Types (docs : list DatedTx) (year : Z) (m : nat).

(** The total of a group is the sum of the amounts of its documents; a key
    without documents has no group. *)
Lemma group_totals_lookup `{Countable K} (key : DatedTx → K) docs (k : K) :
  default 0 (group_totals key docs !! k)
  = foldr Z.add 0 (dt_amount <$> filter (λ d, key d = k) docs).
Proof.
  induction docs as [|d docs IH]; [done|].
  cbn [group_totals fold_right]. fold (group_totals key docs).
  rewrite filter_cons. destruct (decide (key d = k)) as [<-|Hne].
  - rewrite lookup_insert_eq. cbn. rewrite IH. lia.
  - by rewrite lookup_insert_ne.
Qed.

Lemma type_name_inj ty ty' : type_name ty = type_name ty' → ty = ty'.
Proof. by destruct ty, ty'. Qed.

Lemma chart_total year m ty docs :
  default 0 (group_totals (λ d, (dt_month d, type_name (dt_type d)))
                          (filter (λ d, dt_year d = year) docs)
             !! (m, type_name ty))
  = month_total year m ty docs.
Proof.
  rewrite group_totals_lookup, list_filter_filter. unfold month_total.
  do 2 f_equal. apply list_filter_iff. intros d. split.
  - intros [[= Hm Hty%type_name_inj] Hy]. done.
  - intros (Hy & Hm & Hty). by rewrite Hm, Hty.
Qed.

Lemma chart_points year docs m :
  (1 ≤ m ≤ 12)%nat →
  ∃ name, monthNames !! (m - 1)%nat = Some name
    ∧ (chart year docs).1 !! (m - 1)%nat
      = Some (mkChartPoint (name +:+ " " +:+ pretty year)
                           (month_total year m income docs))
    ∧ (chart year docs).2 !! (m - 1)%nat
      = Some (mkChartPoint (name +:+ " " +:+ pretty year)
                           (month_total year m expense docs)).
Proof.
  intros Hm. unfold chart. cbn [fst snd].
  assert (is_Some (monthNames !! (m - 1)%nat)) as [name Hname]
    by (apply lookup_lt_is_Some; cbn; lia).
  exists name. split; [done|].
  rewrite !list_lookup_fmap, lookup_seq_lt by lia.
  replace (1 + (m - 1))%nat with m by lia. cbn [fmap option_fmap option_map].
  rewrite Hname. cbn [default].
  change "income" with (type_name income). change "expense" with (type_name expense).
  by rewrite !chart_total.
Qed.

(** The chart of a year has twelve points for the income and twelve for
    the expense, in the order of the months.  The point of a month is
    labelled with the name of the month and the year, and its total is the
    sum of the amounts of the transactions of that type created in that
    month, 0 when there is none. *)
Theorem chart_reports_month_totals year docs m :
  1000 ≤ year ≤ 9998 →
  (1 ≤ m ≤ 12)%nat →
  length (chart year docs).1 = 12%nat
  ∧ length (chart year docs).2 = 12%nat
  ∧ (∃ name, monthNames !! (m - 1)%nat = Some name
       ∧ (chart year docs).1 !! (m - 1)%nat
         = Some (mkChartPoint (name +:+ " " +:+ pretty year)
                              (month_total year m income docs))
       ∧ (chart year docs).2 !! (m - 1)%nat
         = Some (mkChartPoint (name +:+ " " +:+ pretty year)
                              (month_total year m expense docs))).
Proof.
  intros _ Hm.
  split; [unfold chart; cbn [fst]; by rewrite length_fmap, length_seq|].
  split; [unfold chart; cbn [snd]; by rewrite length_fmap, length_seq|].
  by apply chart_points.
Qed.

Lemma summary_cases (month year : option Z) docs :
  match month, year with
  | Some mo, Some y =>
      if bool_decide (1 ≤ mo ≤ 12 ∧ y ≠ 0)
      then summary month year docs
           = SummaryOk (month_total (utc_year y) (Z.to_nat mo) income docs)
                       (month_total (utc_year y) (Z.to_nat mo) expense docs) mo y
      else summary month year docs = SummaryInvalid
  | _, _ => summary month year docs = SummaryInvalid
  end.
Proof.
  destruct month as [mo|], year as [y|]; try done. unfold summary.
  case_bool_decide as Hok.
  - destruct Hok as [[Hlo Hhi] Hy].
    rewrite !bool_decide_eq_false_2 by lia.
    destruct (Z.ltb_spec mo 1); [lia|]. destruct (Z.ltb_spec 12 mo); [lia|].
    cbn [orb].
    change "income" with (type_name income). change "expense" with (type_name expense).
    rewrite !group_totals_lookup, !list_filter_filter. unfold month_total.
    f_equal; do 2 f_equal; apply list_filter_iff; intros d; split.
    + intros [Hty%type_name_inj [Hyr Hmo]]. split; [done|]. split; [lia | done].
    + intros (Hyr & Hmo & ->). split; [done|]. split; [done | lia].
    + intros [Hty%type_name_inj [Hyr Hmo]]. split; [done|]. split; [lia | done].
    + intros (Hyr & Hmo & ->). split; [done|]. split; [done | lia].
  - destruct (decide (mo = 0)) as [->|Hmo]; [done|].
    destruct (decide (y = 0)) as [->|Hy].
    { rewrite bool_decide_eq_false_2 by done. done. }
    rewrite !bool_decide_eq_false_2 by done. cbn [orb].
    destruct (Z.ltb_spec mo 1); [done|]. destruct (Z.ltb_spec 12 mo); [done|].
    exfalso. apply Hok. lia.
Qed.

(** The summary refuses a month or a year that is missing or 0 and a month
    outside 1 to 12.  Otherwise (for a year [Date.UTC] can take) it
    reports, for the month of the year that [Date.UTC] means, the sum of
    the incomes and the sum of the expenses created in it, and echoes the
    month and the year of the request. *)
Theorem summary_reports_month_totals (month year : option Z) docs :
  match year with Some y => -271820 ≤ y ≤ 275759 | None => True end →
  match month, year with
  | Some mo, Some y =>
      if bool_decide (1 ≤ mo ≤ 12 ∧ y ≠ 0)
      then summary month year docs
           = SummaryOk (month_total (utc_year y) (Z.to_nat mo) income docs)
                       (month_total (utc_year y) (Z.to_nat mo) expense docs) mo y
      else summary month year docs = SummaryInvalid
  | _, _ => summary month year docs = SummaryInvalid
  end.
Proof. intros _. apply summary_cases. Qed.

(** For a year of four digits the chart and the summary agree: the two
    totals the summary reports for a month are the totals of the chart
    points of that month. *)
Theorem chart_agrees_with_summary year docs m :
  1000 ≤ year ≤ 9998 →
  (1 ≤ m ≤ 12)%nat →
  ∃ inc exp,
    summary (Some (Z.of_nat m)) (Some year) docs = SummaryOk inc exp (Z.of_nat m) year
    ∧ cp_total <$> (chart year docs).1 !! (m - 1)%nat = Some inc
    ∧ cp_total <$> (chart year docs).2 !! (m - 1)%nat = Some exp.
Proof.
  intros Hy Hm.
  destruct (chart_points year docs m Hm) as (name & _ & Hi & He).
  pose proof (summary_cases (Some (Z.of_nat m)) (Some year) docs) as Hs.
  cbv beta iota in Hs. rewrite bool_decide_eq_true_2 in Hs by lia.
  rewrite Nat2Z.id in Hs.
  assert (utc_year year = year) as Hutc.
  { unfold utc_year. destruct (Z.leb_spec year 99); [lia|]. by rewrite andb_false_r. }
  rewrite Hutc in Hs.
  eexists _, _. split; [exact Hs|]. by rewrite Hi, He.
Qed.

End DashboardFacts.

(* ===================================================================== *)
(** * The properties above at concrete requests *)
(* ===================================================================== *)

Section Instances.

Local Abbreviation rx := fragment_RegExp_i.

(** An income whose user is a name is refused by [Transaction.create]: no
    transaction is stored, and the wallet of 100 has been saved with 150. *)
Lemma failed_request_writes_no_transaction_witness :
  (Demo.step (OpCreate Cases.income_of_budi) Demo.wallet).1 = CreateRejected
  ∧ transactions (Demo.step (OpCreate Cases.income_of_budi) Demo.wallet).2
    = transactions Demo.wallet
  ∧ amount_of 1 (Demo.step (OpCreate Cases.income_of_budi) Demo.wallet).2 = Some 150.
Proof.
  assert (H : (Demo.step (OpCreate Cases.income_of_budi) Demo.wallet).1 ≠ Ok200)
    by (vm_compute; discriminate).
  destruct (failed_request_writes_no_transaction fragment_RegExp_i hex_castObjectId
              hex_toString (OpCreate Cases.income_of_budi) Demo.wallet H) as (Ht & _).
  split; [vm_compute; reflexivity|]. split; [exact Ht|]. vm_compute; reflexivity.
Defined.

(** An income of 50 that is created and then deleted leaves the wallet
    of 100. *)
Lemma create_then_delete_restores_witness :
  deleteTransaction 0 (Demo.step (OpCreate Demo.income_50) Demo.wallet).2
  = (Ok200, Demo.wallet).
Proof.
  exact (create_then_delete_restores fragment_RegExp_i hex_castObjectId hex_toString
           (OpCreate Demo.income_50) Demo.wallet eq_refl eq_refl eq_refl).
Defined.

(** Scenario 3 as an edit and as a delete followed by a create: both end
    with the same saldos. *)
Lemma update_is_delete_then_create_witness :
  saldos (Demo.updateTransaction 0 Cases.to_80 Demo.wallet_150).2
  = saldos (Demo.createTransaction
              (body_of hex_toString (mkTransaction 7 3 1 80 "gaji" income))
              (deleteTransaction 0 Demo.wallet_150).2).2.
Proof.
  destruct (update_is_delete_then_create hex_castObjectId hex_toString
              0 Cases.to_80 Demo.wallet_150
              (mkTransaction 7 3 1 50 "gaji" income) (mkSaldo "Wallet" 150 "cash")
              income 80 (mkTransaction 7 3 1 80 "gaji" income)
              eq_refl eq_refl eq_refl eq_refl eq_refl eq_refl eq_refl
              eq_refl eq_refl eq_refl)
    as (_ & _ & Hs & _).
  exact Hs.
Defined.

(** Scenario 3 with the id of the wallet in upper case: the wallet of 150
    ends at 230, not at 180. *)
Lemma update_same_saldo_other_string_witness :
  (updateTransaction hex_castObjectId hex_toString 0 Cases.to_80_upper Cases.wallet_a).1
  = Ok200
  ∧ amount_of 10 (updateTransaction hex_castObjectId hex_toString 0 Cases.to_80_upper
                    Cases.wallet_a).2 = Some 230.
Proof.
  destruct (update_same_saldo_other_string hex_castObjectId hex_toString
              0 Cases.to_80_upper Cases.wallet_a
              (mkTransaction 7 3 10 50 "gaji" income) (mkSaldo "Wallet" 150 "cash")
              "00000000000000000000000A" 230 (mkTransaction 7 3 10 80 "gaji" income)
              eq_refl eq_refl eq_refl eq_refl eq_refl eq_refl)
    as (Hok & Hamount & _).
  split; [exact Hok | exact Hamount].
Defined.

(** An income of -500 on the wallet of 100 is committed by the
    prediction route. *)
Lemma models_guard_covers_expenses_only_witness :
  (Demo.createWithPrediction Cases.negative_income "koreksi" Demo.wallet).1 = Ok200
  ∧ amount_of 1 (Demo.createWithPrediction Cases.negative_income "koreksi" Demo.wallet).2
    = Some (-400).
Proof.
  destruct (models_guard_covers_expenses_only fragment_RegExp_i hex_castObjectId
              Cases.negative_income "koreksi" Demo.wallet 1%nat
              (mkSaldo "Wallet" 100 "cash") eq_refl eq_refl (ex_intro _ _ eq_refl))
    as [_ Hincome].
  exact (Hincome eq_refl (ex_intro _ _ eq_refl)).
Defined.

(** A second saldo of 250 opened beside the wallet of 100: the ledger
    equation holds with 250 as its opening amount. *)
Lemma createSaldo_opens_account_witness :
  getSaldo 2 (createSaldo Cases.savings Demo.wallet).2
  = Some (mkSaldo "Tabungan" 250 "bank")
  ∧ ledger_inv (λ k, if bool_decide (k = 2%nat) then 250 else 100)
               (createSaldo Cases.savings Demo.wallet).2.
Proof.
  assert (Hinv : ledger_inv (λ _, 100) Demo.wallet).
  { unfold ledger_inv. refine (bool_decide_unpack _ _). vm_compute. exact I. }
  destruct (createSaldo_opens_account (λ _, 100) Cases.savings Demo.wallet Hinv)
    as (_ & Hget & _ & _ & Hinv').
  split; [exact Hget | exact Hinv'].
Defined.

(** Setting the wallet of 150 (opened with 100, one income of 50) to 500
    moves its opening amount to 450. *)
Lemma updateSaldo_rebases_opening_witness :
  (updateSaldo 1 Cases.set_500 Demo.wallet_150).1 = Ok200
  ∧ ledger_inv (rebase (λ _, 100) 1 350)
               (updateSaldo 1 Cases.set_500 Demo.wallet_150).2.
Proof.
  assert (Hinv : ledger_inv (λ _, 100) Demo.wallet_150).
  { unfold ledger_inv. refine (bool_decide_unpack _ _). vm_compute. exact I. }
  pose proof (updateSaldo_rebases_opening (λ _, 100) 1 Cases.set_500
                Demo.wallet_150 Hinv) as H.
  change (saldos Demo.wallet_150 !! 1%nat)
    with (Some (mkSaldo "Wallet" 150 "cash")) in H.
  destruct H as (Hok & _ & _ & _ & Hinv' & _).
  split; [exact Hok | exact Hinv'].
Defined.

(** After the wallet is deleted, its transaction can neither be deleted
    nor edited. *)
Lemma deleteSaldo_strands_transactions_witness :
  deleteTransaction 0 (deleteSaldo 1 Demo.wallet_150).2
  = (SaldoNotFound, (deleteSaldo 1 Demo.wallet_150).2)
  ∧ Demo.updateTransaction 0 Cases.to_80 (deleteSaldo 1 Demo.wallet_150).2
    = (OriginalSaldoNotFound, (deleteSaldo 1 Demo.wallet_150).2).
Proof.
  destruct (deleteSaldo_strands_transactions hex_castObjectId hex_toString
              1 Demo.wallet_150 (deleteSaldo 1 Demo.wallet_150).2 0
              (mkTransaction 7 3 1 50 "gaji" income) eq_refl eq_refl eq_refl)
    as (_ & _ & Hdel & Hupd).
  split; [exact Hdel | exact (Hupd Cases.to_80)].
Defined.

(** The label "Pulsa" creates the category with id 2; resolving it again
    finds that category and creates nothing. *)
Lemma resolveCategory_idempotent_witness :
  resolveCategory rx "Pulsa" expense
    (Demo.two_categories
       ++ [mkCategory 2 "pulsa" expense "Auto-generated category for Pulsa"])
  = Some (mkCategory 2 "pulsa" expense "Auto-generated category for Pulsa",
          Demo.two_categories
            ++ [mkCategory 2 "pulsa" expense "Auto-generated category for Pulsa"]).
Proof.
  exact (resolveCategory_idempotent rx "Pulsa" expense Demo.two_categories _ _
           (match_atoms (literal_atoms "Pulsa")) eq_refl eq_refl eq_refl eq_refl).
Defined.

(** A top-up created on a store with two categories: the ids stay distinct
    and the new transaction names a stored category. *)
Lemma models_create_keeps_category_references_witness :
  distinct_category_ids
    (Demo.createWithPrediction Cases.topup_20 "Pulsa" Cases.wallet_with_categories).2
  ∧ categories_resolve
      (Demo.createWithPrediction Cases.topup_20 "Pulsa" Cases.wallet_with_categories).2.
Proof.
  apply (models_create_keeps_category_references rx hex_castObjectId Cases.topup_20
           "Pulsa" Cases.wallet_with_categories).
  - unfold distinct_category_ids. refine (bool_decide_unpack _ _). vm_compute. exact I.
  - unfold categories_resolve. refine (bool_decide_unpack _ _). vm_compute. exact I.
Defined.

(** After the category with id 1 is deleted, the transaction filed under
    it is read as "unknown". *)
Lemma deleteCategory_turns_label_unknown_witness :
  categoryName
    (populate [mkCategory 0 "e-money" expense "top up"]
              (mkTransaction 7 1 1 20 "kartu" expense))
  = "unknown".
Proof.
  destruct (deleteCategory_turns_label_unknown 1 Cases.wallet_80
              (mkStore (saldos Cases.wallet_80) (transactions Cases.wallet_80)
                       [mkCategory 0 "e-money" expense "top up"])
              (mkTransaction 7 1 1 20 "kartu" expense) eq_refl eq_refl)
    as (_ & _ & Hname).
  exact Hname.
Defined.

(** Seven documents in pages of three: three pages, the last one holding
    one document, and nothing after it. *)
Lemma list_pages_cover_collection_witness :
  list_page 1 3 Cases.seven ++ list_page 2 3 Cases.seven ++ list_page 3 3 Cases.seven
  = Cases.seven
  ∧ list_page 3 3 Cases.seven ≠ []
  ∧ list_page 4 3 Cases.seven = [].
Proof.
  destruct (list_pages_cover_collection Cases.seven 3 ltac:(lia)) as [Hall Hpage].
  split; [by rewrite <- Hall at 4|].
  split.
  - exact (proj1 (proj2 (Hpage 3%nat ltac:(lia))) ltac:(vm_compute; lia)).
  - exact (proj2 (proj2 (Hpage 4%nat ltac:(lia))) ltac:(vm_compute; lia)).
Defined.

(** Training the ready service on one top-up writes the new model and keeps
    the salary model as the backup. *)
Lemma trainClassifier_persists_and_rotates_witness :
  model_file (Toy.trainClassifier 5 Toy.one_topup Toy.ready_service).2
  = Some (Toy.toJson (Toy.live (Toy.trainClassifier 5 Toy.one_topup Toy.ready_service).2))
  ∧ backup_file (Toy.trainClassifier 5 Toy.one_topup Toy.ready_service).2
    = Some (Toy.toJson Toy.salary_model).
Proof.
  destruct (trainClassifier_persists_and_rotates Toy.Classifier Toy.bayes Toy.learn
              Toy.toJson 5%nat Toy.one_topup Toy.ready_service)
    as (_ & _ & _ & Hfile & Hbackup).
  - unfold wf_service. cbn. lia.
  - discriminate.
  - split; [exact Hfile | exact Hbackup].
Defined.

(** Training on one top-up and loading again gives the salary model with
    the top-up learned, without reading the backup. *)
Lemma train_then_load_round_trip_witness :
  (Toy.loadModel (Toy.trainClassifier 5 Toy.one_topup Toy.ready_service).2).1 = true
  ∧ Toy.live (Toy.loadModel (Toy.trainClassifier 5 Toy.one_topup Toy.ready_service).2).2
    = Toy.learn Toy.salary_model "pulsa expense" "pulsa".
Proof.
  destruct (train_then_load_round_trip Toy.Classifier Toy.bayes Toy.learn Toy.toJson
              Toy.fromJson Toy.JSON_parse 5%nat Toy.one_topup Toy.ready_service)
    as (Hok & Hlive & _).
  - unfold wf_service. cbn. lia.
  - discriminate.
  - vm_compute. reflexivity.
  - vm_compute. reflexivity.
  - vm_compute. reflexivity.
  - split; [exact Hok | exact Hlive].
Defined.

(** The ready service answers "gaji" for a salary and is left as it was. *)
Lemma predictCategory_answers_witness :
  Toy.predictCategory 5 Toy.one_topup "Gaji Bulanan" income Toy.ready_service
  = ("gaji", Toy.ready_service).
Proof.
  destruct (predictCategory_answers Toy.Classifier Toy.bayes Toy.learn Toy.categorize
              Toy.toJson 5%nat Toy.one_topup "Gaji Bulanan" income Toy.ready_service)
    as (_ & Hready & _).
  destruct (Hready eq_refl) as [Hsame Hanswer].
  apply injective_projections; [exact Hanswer | exact Hsame].
Defined.

(** A service that is not ready trains on the one top-up before it
    answers. *)
Lemma predictCategory_trains_on_demand_witness :
  (Toy.predictCategory 5 Toy.one_topup "PULSA" expense Toy.only_backup).2
  = (Toy.trainClassifier 5 Toy.one_topup Toy.only_backup).2
  ∧ (Toy.predictCategory 5 Toy.one_topup "PULSA" expense Toy.only_backup).1 = "pulsa".
Proof.
  destruct (predictCategory_trains_on_demand Toy.Classifier Toy.bayes Toy.learn
              Toy.categorize Toy.toJson 5%nat Toy.one_topup "PULSA" expense
              Toy.only_backup) as (Hsame & _ & Hanswer).
  - unfold wf_service. cbn. lia.
  - reflexivity.
  - discriminate.
  - split; [exact Hsame | exact Hanswer].
Defined.

(** Of four predictions, three are top-ups and three are taken for
    top-ups. *)
Lemma metrics_count_test_data_witness :
  m_support (metrics_of Toy.round4 (generateConfusionMatrix Cases.four_predictions) "pulsa")
  = 3%nat
  ∧ (cell (generateConfusionMatrix Cases.four_predictions) "pulsa" "pulsa"
     + falsePositives (generateConfusionMatrix Cases.four_predictions) "pulsa")%nat
    = 3%nat.
Proof.
  destruct (metrics_count_test_data Toy.round4 Cases.four_predictions "pulsa")
    as (_ & Hsupport & Hpredicted & _).
  - refine (bool_decide_unpack _ _). vm_compute. exact I.
  - split; [exact Hsupport | exact Hpredicted].
Defined.

(** Ten transactions are split into eight for training and two for the
    test; the answer counts two and carries their two predictions. *)
Lemma evaluateModel_splits_without_loss_witness :
  slice 0 8 Cases.ten ++ slice_from 8 Cases.ten = Cases.ten
  ∧ ∃ accuracy metrics sample,
      evaluateModel Toy.Classifier Toy.bayes Toy.learn Toy.categorize Toy.round4 Cases.ten
      = EvalSuccess accuracy 2
          (generateConfusionMatrix
             (evaluation_predictions Toy.Classifier Toy.bayes Toy.learn Toy.categorize
                Cases.ten))
          metrics sample
      ∧ length sample = 2%nat.
Proof.
  destruct (evaluateModel_splits_without_loss Toy.Classifier Toy.bayes Toy.learn
              Toy.categorize Toy.round4 Cases.ten) as [_ Hsplit].
  assert (Hten : (10 ≤ length (take 1000 Cases.ten))%nat) by (cbn; lia).
  destruct (Hsplit Hten) as (Happ & _ & _ & accuracy & metrics & sample & Heq & _ & _ & Hlen).
  split; [exact Happ|].
  exists accuracy, metrics, sample. split; [exact Heq | exact Hlen].
Defined.

(** The chart of 2024 shows 80 of income and 20 of expense for May. *)
Lemma chart_reports_month_totals_witness :
  (chart 2024 Cases.dated).1 !! 4%nat = Some (mkChartPoint "May 2024" 80)
  ∧ (chart 2024 Cases.dated).2 !! 4%nat = Some (mkChartPoint "May 2024" 20).
Proof.
  destruct (chart_reports_month_totals 2024 Cases.dated 5 ltac:(lia) ltac:(lia))
    as (_ & _ & name & Hname & Hincome & Hexpense).
  injection Hname as <-.
  split; [exact Hincome | exact Hexpense].
Defined.

(** A summary asked for month 5 of year 24 reports May 1924. *)
Lemma summary_reports_month_totals_witness :
  summary (Some 5) (Some 24) Cases.dated = SummaryOk 9 0 5 24.
Proof.
  assert (Hyear : -271820 ≤ 24 ≤ 275759) by lia.
  exact (summary_reports_month_totals (Some 5) (Some 24) Cases.dated Hyear).
Defined.

(** The summary of May 2024 and the fifth points of the chart of 2024
    carry the same totals. *)
Lemma chart_agrees_with_summary_witness :
  ∃ inc exp : Z,
    summary (Some 5) (Some 2024) Cases.dated = SummaryOk inc exp 5 2024
    ∧ cp_total <$> (chart 2024 Cases.dated).1 !! 4%nat = Some inc
    ∧ cp_total <$> (chart 2024 Cases.dated).2 !! 4%nat = Some exp.
Proof.
  exact (chart_agrees_with_summary 2024 Cases.dated 5 ltac:(lia) ltac:(lia)).
Defined.

End Instances.
